(** * pubsub_service: the broker engine and its stream session

    A shallow embedding of [src/models.py], [src/manager.py] and the
    websocket endpoint of [src/main.py], followed by the properties of the
    broker that the specification states.

    Conventions of the embedding.
    - A Python [dict] whose iteration order reaches the wire (a topic's
      [subscribers]) is an insertion-ordered association list ([PyDict]);
      the two registries of the manager, whose order no operation on the
      broker state depends on, are finite maps, and a Python [set] is a
      finite set.
    - [async def] bodies run under [self.lock], so each broker operation is
      one atomic computation in a state-and-exception monad over the whole
      world: the manager, the sockets (owned by the transport) and the
      frames put on the wire.
    - The [ts] field of server frames is read from the wall clock and is
      left out of the frames. *)

From Stdlib Require Import ZArith Lia.
From stdpp Require Import base option list strings gmap.

Set Warnings "-register-all".

(** ** Insertion-ordered dictionaries with string keys *)

Module PyDict.
Section dict.
Context {V : Type}.

(** [d.get(k)] *)
Fixpoint get (k : string) (d : list (string * V)) : option V :=
  match d with
  | [] => None
  | (k', v) :: d' => if decide (k' = k) then Some v else get k d'
  end.

(** [list(d.keys())] and [list(d.items())] *)
Definition keys (d : list (string * V)) : list string := d.*1.

Definition items (d : list (string * V)) : list (string * V) := d.

(** [k in d] *)
Definition contains (k : string) (d : list (string * V)) : bool :=
  bool_decide (k ∈ keys d).

(** [d[k] = v]: an existing key keeps its position, a new key goes last. *)
Fixpoint setitem (k : string) (v : V) (d : list (string * V))
  : list (string * V) :=
  match d with
  | [] => [(k, v)]
  | (k', v') :: d' =>
      if decide (k' = k) then (k, v) :: d' else (k', v') :: setitem k v d'
  end.

(** [del d[k]], for a key that is present. *)
Definition delitem (k : string) (d : list (string * V))
  : list (string * V) :=
  filter (λ kv, kv.1 ≠ k) d.

(** The lists that stand for a dictionary: no key occurs twice. *)
Definition wf (d : list (string * V)) : Prop := NoDup (keys d).

End dict.
End PyDict.

Abbreviation pydict V := (list (string * V)) (only parsing).

(** ** models.py *)

Module models.

(** A decoded JSON value, as [receive_json] returns it.  A number written
    with a fraction or an exponent is a Python [float], known here by the
    64 bits of its representation. *)
Inductive json :=
| JNull
| JBool (b : bool)
| JInt (z : Z)
| JFloat (bits : Z)
| JStr (s : string)
| JList (l : list json)
| JDict (d : list (string * json)).

(** The canonical text of a UUID. *)
Definition UUID := string.

Record MessagePayload := {
  id : UUID;
  payload : pydict json
}.

Record HealthResponse := {
  uptime_sec : Z;
  topics : Z;
  subscribers : Z
}.

(** [TopicStats]; its [subscribers] field is [subscriber_count] here, the
    name being taken by [HealthResponse]. *)
Record TopicStats := {
  messages : Z;
  subscriber_count : Z
}.

Record ErrorPayload := {
  code : string;
  message : string
}.

(** Client -> server frames after validation; the [type] literal of each
    class is fixed by the class. *)
Module ClientSubscribeMessage.
Record t := {
  topic : string;
  client_id : string;
  last_n : option Z;
  request_id : option string
}.
End ClientSubscribeMessage.

Module ClientUnsubscribeMessage.
Record t := {
  topic : string;
  client_id : string;
  request_id : option string
}.
End ClientUnsubscribeMessage.

Module ClientPublishMessage.
Record t := {
  topic : string;
  message : MessagePayload;
  request_id : option string
}.
End ClientPublishMessage.

Module ClientPingMessage.
Record t := {
  request_id : option string
}.
End ClientPingMessage.

(** Server -> client frames ([status] of an ack is always ["ok"]). *)
Inductive ServerMessage :=
| ServerAckMessage (request_id : option string) (topic : option string)
| ServerEventMessage (topic : string) (message : MessagePayload)
| ServerErrorMessage (request_id : option string) (error : ErrorPayload)
| ServerPongMessage (request_id : option string)
| ServerInfoMessage (topic : option string) (msg : string).

(** What pydantic does to a value whose JSON type is not the declared one
    (refuse it, or convert it) depends on the library's version; it is an
    interface here.  A value of the declared type is taken as it is. *)
Class Pydantic := {
  coerce_str : json → option string;
  coerce_int : json → option Z;
  coerce_uuid : json → option UUID;
  coerce_str_JStr : ∀ s, coerce_str (JStr s) = Some s;
  coerce_int_JInt : ∀ z, coerce_int (JInt z) = Some z
}.

(** The converter that refuses every value of another JSON type. *)
#[export] Instance strict : Pydantic.
Proof.
  refine {|
    coerce_str v := match v with JStr s => Some s | _ => None end;
    coerce_int v := match v with JInt z => Some z | _ => None end;
    coerce_uuid v := match v with JStr s => Some s | _ => None end
  |}; reflexivity.
Defined.

Section validation.
Context `{Pydantic}.

(** Validation answers with the field it refused, which stands for the
    validator's report. *)
Definition validated (A : Type) := (string + A)%type.

Definition bind {A B} (m : validated A) (k : A → validated B)
  : validated B :=
  match m with inl loc => inl loc | inr a => k a end.

(** A required [str] field. *)
Definition field_str (data : pydict json) (f : string)
  : validated string :=
  match PyDict.get f data with
  | None => inl f
  | Some v => match coerce_str v with Some s => inr s | None => inl f end
  end.

(** An [Optional[str] = None] value: absent and null are [None]. *)
Definition optional_str (f : string) (v : option json)
  : validated (option string) :=
  match v with
  | None | Some JNull => inr None
  | Some v => match coerce_str v with
              | Some s => inr (Some s)
              | None => inl f
              end
  end.

(** [last_n: Optional[int] = Field(0, ge=0)]: absent is the default 0,
    an explicit null is [None], an integer must be at least 0. *)
Definition field_last_n (data : pydict json) : validated (option Z) :=
  match PyDict.get "last_n" data with
  | None => inr (Some 0%Z)
  | Some JNull => inr None
  | Some v => match coerce_int v with
              | Some z => if decide (0 ≤ z)%Z then inr (Some z)
                          else inl "last_n"
              | None => inl "last_n"
              end
  end.

(** [message: MessagePayload], from a JSON object with [id] and
    [payload]. *)
Definition field_message (data : pydict json)
  : validated MessagePayload :=
  match PyDict.get "message" data with
  | Some (JDict m) =>
      match PyDict.get "id" m, PyDict.get "payload" m with
      | Some i, Some (JDict p) =>
          match coerce_uuid i with
          | Some u => inr {| id := u; payload := p |}
          | None => inl "message"
          end
      | _, _ => inl "message"
      end
  | _ => inl "message"
  end.

(** The constructors called on the keyword arguments of the received
    object: [ClientSubscribeMessage] and its siblings. *)
Definition validate_subscribe (data : pydict json)
  : validated ClientSubscribeMessage.t :=
  bind (field_str data "topic") (λ topic,
  bind (field_str data "client_id") (λ client_id,
  bind (field_last_n data) (λ last_n,
  bind (optional_str "request_id" (PyDict.get "request_id" data))
    (λ request_id,
  inr (ClientSubscribeMessage.Build_t topic client_id last_n request_id))))).

Definition validate_unsubscribe (data : pydict json)
  : validated ClientUnsubscribeMessage.t :=
  bind (field_str data "topic") (λ topic,
  bind (field_str data "client_id") (λ client_id,
  bind (optional_str "request_id" (PyDict.get "request_id" data))
    (λ request_id,
  inr (ClientUnsubscribeMessage.Build_t topic client_id request_id)))).

Definition validate_publish (data : pydict json)
  : validated ClientPublishMessage.t :=
  bind (field_str data "topic") (λ topic,
  bind (field_message data) (λ message,
  bind (optional_str "request_id" (PyDict.get "request_id" data))
    (λ request_id,
  inr (ClientPublishMessage.Build_t topic message request_id)))).

Definition validate_ping (data : pydict json)
  : validated ClientPingMessage.t :=
  bind (optional_str "request_id" (PyDict.get "request_id" data))
    (λ request_id, inr (ClientPingMessage.Build_t request_id)).

(** The server frames the endpoint builds from the raw [request_id]. *)
Definition new_ack (request_id : option json) (topic : string)
  : validated ServerMessage :=
  bind (optional_str "request_id" request_id) (λ r,
  inr (ServerAckMessage r (Some topic))).

Definition new_pong (request_id : option json) : validated ServerMessage :=
  bind (optional_str "request_id" request_id) (λ r,
  inr (ServerPongMessage r)).

Definition new_error (request_id : option json) (error : ErrorPayload)
  : validated ServerMessage :=
  bind (optional_str "request_id" request_id) (λ r,
  inr (ServerErrorMessage r error)).

End validation.

(** The REST models.  [CreateTopicRequest] is the body the framework has
    already validated when it calls the endpoint. *)
Module CreateTopicRequest.
Record t := {
  name : string
}.
End CreateTopicRequest.

Module TopicStatusResponse.
Record t := {
  status : string;
  topic : string
}.
End TopicStatusResponse.

Module ListTopicsResponse.
Record t := {
  topics : list string
}.
End ListTopicsResponse.

End models.

(** ** The transport, as the broker sees it *)

Module starlette.

Inductive WebSocketState := CONNECTING | CONNECTED | DISCONNECTED.

#[export] Instance WebSocketState_eq_dec : EqDecision WebSocketState.
Proof. solve_decision. Defined.

(** A [WebSocket] object is known by its identity; what the broker can
    observe of it is its [client_state] attribute ([None] when the object
    has none) and whether the transport under it still takes a frame.  Both
    belong to the peer and the transport, not to the broker. *)
Definition WebSocket := nat.

Record Socket := {
  client_state : option WebSocketState;
  transport_up : bool
}.

(** What the broker puts on the wire. *)
Inductive wire_event :=
| Sent (websocket : WebSocket) (frame : models.ServerMessage)
| Closed (websocket : WebSocket) (code : Z).

End starlette.

(** ** collections.deque(maxlen=...) *)

Module collections.

Record deque (A : Type) := {
  maxlen : nat;
  elems : list A
}.
Arguments maxlen {A} _.
Arguments elems {A} _.

(** [q.append(x)]: the new element goes to the right, and the leftmost one
    is dropped when the bound is exceeded. *)
Definition append {A} (x : A) (q : deque A) : deque A :=
  let l := elems q ++ [x] in
  {| maxlen := maxlen q;
     elems := if decide (maxlen q < length l) then drop 1 l else l |}.

End collections.

(** ** Coroutines under the broker lock: state and exceptions *)

(** The exceptions of the program.  [TransportFailure] is whatever a send or
    a close raises on a transport that is gone; it is kept apart from the
    [WebSocketDisconnect] that [receive_json] raises when the peer leaves.
    [ValidationError] is a [ValueError] in Python; the endpoint matches it
    first. *)
Inductive exn :=
| ValueError (text : string)
| ValidationError (text : string)
| HTTPException (status_code : Z) (detail : string)
| TypeError
| AttributeError
| KeyError (key : string)
| WebSocketDisconnect
| TransportFailure.

Inductive outcome (A : Type) :=
| Return (a : A)
| Raise (e : exn).
Arguments Return {A} a.
Arguments Raise {A} e.

(** A computation over a state [S]; the state reached when an exception is
    raised is kept, as the mutations of a Python object are. *)
Definition Async (S A : Type) : Type := S → outcome A * S.

#[export] Instance Async_ret {S} : MRet (Async S) :=
  λ A a s, (Return a, s).

#[export] Instance Async_bind {S} : MBind (Async S) :=
  λ A B k m s,
    match m s with
    | (Return a, s') => k a s'
    | (Raise e, s') => (Raise e, s')
    end.

Definition raise {S A} (e : exn) : Async S A := λ s, (Raise e, s).

Definition gets {S A} (f : S → A) : Async S A := λ s, (Return (f s), s).

Definition modify {S} (f : S → S) : Async S unit := λ s, (Return tt, f s).

(** [for x in l: body] *)
Fixpoint for_each {S A} (l : list A) (body : A → Async S unit)
  : Async S unit :=
  match l with
  | [] => mret tt
  | x :: l' => body x;; for_each l' body
  end.

(** A [for] loop that grows a local accumulator. *)
Fixpoint for_fold {S A B} (l : list A) (acc : B) (body : B → A → Async S B)
  : Async S B :=
  match l with
  | [] => mret acc
  | x :: l' => acc' ← body acc x; for_fold l' acc' body
  end.

(** [try: m  except <the exceptions handler answers>: ...] *)
Definition try_except {S A} (m : Async S A)
  (handler : exn → option (Async S A)) : Async S A :=
  λ s,
    match m s with
    | (Return a, s') => (Return a, s')
    | (Raise e, s') =>
        match handler e with
        | Some h => h s'
        | None => (Raise e, s')
        end
    end.

(** [try: m  finally: fin] *)
Definition try_finally {S A} (m : Async S A) (fin : Async S unit)
  : Async S A :=
  λ s,
    let '(o, s') := m s in
    match fin s' with
    | (Return _, s'') => (o, s'')
    | (Raise e, s'') => (Raise e, s'')
    end.

(** [m] keeps the property [P] of the state, whatever its outcome. *)
Definition keeps {S A} (P : S → Prop) (m : Async S A) : Prop :=
  ∀ s, P s → P (m s).2.

(** ** manager.py *)

Module manager.
Import starlette.

Record Topic := {
  name : string;
  subscribers : pydict WebSocket;
  message_history : collections.deque models.MessagePayload;
  message_count : Z
}.

(** [Topic.__init__] *)
Definition Topic_init (name : string) : Topic :=
  {| name := name;
     subscribers := [];
     message_history :=
       {| collections.maxlen := 100; collections.elems := [] |};
     message_count := 0 |}.

Record PubSubManager := {
  _topics : gmap string Topic;
  _clients : gmap string (gset string)
}.

(** [PubSubManager.__init__] *)
Definition PubSubManager_init : PubSubManager :=
  {| _topics := ∅; _clients := ∅ |}.

(** The manager, every socket a coroutine may be handed, and the frames
    written so far. *)
Record World := {
  broker : PubSubManager;
  sockets : WebSocket → Socket;
  wire : list wire_event
}.

(** Assignments to the attributes of a topic and to the parts of the
    world. *)
Definition on_subscribers (f : pydict WebSocket → pydict WebSocket)
  (t : Topic) : Topic :=
  {| name := name t;
     subscribers := f (subscribers t);
     message_history := message_history t;
     message_count := message_count t |}.

Definition on_message_history
  (f : collections.deque models.MessagePayload →
       collections.deque models.MessagePayload) (t : Topic) : Topic :=
  {| name := name t;
     subscribers := subscribers t;
     message_history := f (message_history t);
     message_count := message_count t |}.

Definition on_message_count (f : Z → Z) (t : Topic) : Topic :=
  {| name := name t;
     subscribers := subscribers t;
     message_history := message_history t;
     message_count := f (message_count t) |}.

Definition on_topics (f : gmap string Topic → gmap string Topic)
  (w : World) : World :=
  {| broker := {| _topics := f (_topics (broker w));
                  _clients := _clients (broker w) |};
     sockets := sockets w;
     wire := wire w |}.

Definition on_clients
  (f : gmap string (gset string) → gmap string (gset string))
  (w : World) : World :=
  {| broker := {| _topics := _topics (broker w);
                  _clients := f (_clients (broker w)) |};
     sockets := sockets w;
     wire := wire w |}.

Definition on_wire (f : list wire_event → list wire_event) (w : World)
  : World :=
  {| broker := broker w; sockets := sockets w; wire := f (wire w) |}.

Definition on_sockets (f : (WebSocket → Socket) → (WebSocket → Socket))
  (w : World) : World :=
  {| broker := broker w; sockets := f (sockets w); wire := wire w |}.

(** [getattr(websocket, "client_state", None)] *)
Definition getattr_client_state (websocket : WebSocket)
  : Async World (option WebSocketState) :=
  gets (λ w, client_state (sockets w websocket)).

(** [await websocket.send_json(frame)]: the frame goes on the wire, or the
    send raises when the transport is gone. *)
Definition send_json (websocket : WebSocket) (frame : models.ServerMessage)
  : Async World unit :=
  sock ← gets (λ w, sockets w websocket);
  if transport_up sock
  then modify (on_wire (λ l, l ++ [Sent websocket frame]))
  else raise TransportFailure.

(** [await websocket.close(code=code)] *)
Definition close (websocket : WebSocket) (code : Z) : Async World unit :=
  sock ← gets (λ w, sockets w websocket);
  if transport_up sock
  then modify (on_wire (λ l, l ++ [Closed websocket code]))
  else raise TransportFailure.

(** [self._topics[name]]: a topic object is reached through the registry
    key it is stored under. *)
Definition topic_at (name : string) : Async World Topic :=
  topics ← gets (λ w, _topics (broker w));
  match topics !! name with
  | Some topic => mret topic
  | None => raise (KeyError name)
  end.

(** [del topic.subscribers[client_id]] *)
Definition del_subscriber (topic_name client_id : string)
  : Async World unit :=
  topic ← topic_at topic_name;
  if PyDict.contains client_id (subscribers topic)
  then modify (on_topics
                 (alter (on_subscribers (PyDict.delitem client_id)) topic_name))
  else raise (KeyError client_id).

(** [Topic.broadcast], on the topic stored under [self]. *)
Definition broadcast (self : string) (message : models.ServerMessage)
  : Async World unit :=
  topic ← topic_at self;
  disconnected_clients ←
    for_fold (PyDict.items (subscribers topic)) []
      (λ disconnected_clients '(client_id, websocket),
         state ← getattr_client_state websocket;
         if decide (state = Some CONNECTED)
         then send_json websocket message;; mret disconnected_clients
         else mret (disconnected_clients ++ [client_id]));
  for_each disconnected_clients (λ client_id, del_subscriber self client_id).

Definition create_topic (name : string) : Async World unit :=
  topics ← gets (λ w, _topics (broker w));
  if decide (is_Some (topics !! name))
  then raise (HTTPException 409 "Topic already exists")
  else modify (on_topics <[name := Topic_init name]>).

(** The cleanup of a client's subscription list that [delete_topic] and
    [unsubscribe] both spell out:
    [if client_id in self._clients: discard; if empty: del]. *)
Definition discard_subscription (client_id name : string)
  (clients : gmap string (gset string)) : gmap string (gset string) :=
  match clients !! client_id with
  | Some s =>
      let s' := s ∖ {[name]} in
      if decide (s' = ∅) then delete client_id clients
      else <[client_id := s']> clients
  | None => clients
  end.

Definition delete_topic (name : string) : Async World unit :=
  topics ← gets (λ w, _topics (broker w));
  match topics !! name with
  | None => raise (HTTPException 404 "Topic not found")
  | Some topic =>
      let info_message :=
        models.ServerInfoMessage (Some name) "topic_deleted" in
      for_each (PyDict.items (subscribers topic))
        (λ '(client_id, websocket),
           state ← getattr_client_state websocket;
           (if decide (state = Some CONNECTED)
            then send_json websocket info_message;; close websocket 1000
            else mret tt);;
           modify (on_clients (discard_subscription client_id name)));;
      modify (on_topics (delete name))
  end.

(** [list(self._topics.keys())], in the order of the finite map. *)
Definition list_topics : Async World (list string) :=
  gets (λ w, (map_to_list (_topics (broker w))).*1).

Definition get_health_stats : Async World models.HealthResponse :=
  topics ← gets (λ w, _topics (broker w));
  let total_subscribers :=
    foldr Z.add 0%Z
      ((λ kt, Z.of_nat (length (subscribers kt.2))) <$> map_to_list topics) in
  mret {| models.uptime_sec := 0;
          models.topics := Z.of_nat (size topics);
          models.subscribers := total_subscribers |}.

Definition get_full_stats : Async World (gmap string models.TopicStats) :=
  topics ← gets (λ w, _topics (broker w));
  mret ((λ topic,
           {| models.messages := message_count topic;
              models.subscriber_count :=
                Z.of_nat (length (subscribers topic)) |}) <$> topics).

(** [history[start:]] of Python, for any integer [start]. *)
Definition slice_from {A} (start : Z) (l : list A) : list A :=
  let len := Z.of_nat (length l) in
  let start' := if decide (start < 0)%Z then Z.max 0 (start + len)
                else Z.min start len in
  drop (Z.to_nat start') l.

(** The left operand of [last_n > 0]: comparing [None] with an integer
    raises [TypeError]. *)
Definition int_operand (last_n : option Z) : Async World Z :=
  match last_n with
  | Some n => mret n
  | None => raise TypeError
  end.

(** [self._clients[client_id]] created when missing, then [add]. *)
Definition add_subscription (client_id topic_name : string)
  (clients : gmap string (gset string)) : gmap string (gset string) :=
  <[client_id := default ∅ (clients !! client_id) ∪ {[topic_name]}]> clients.

Definition subscribe (topic_name client_id : string) (websocket : WebSocket)
  (last_n : option Z) : Async World unit :=
  topics ← gets (λ w, _topics (broker w));
  match topics !! topic_name with
  | None => raise (ValueError "TOPIC_NOT_FOUND")
  | Some _ =>
      modify (on_topics
                (alter (on_subscribers (PyDict.setitem client_id websocket))
                   topic_name));;
      modify (on_clients (add_subscription client_id topic_name));;
      n ← int_operand last_n;
      if decide (n > 0)%Z then
        topic ← topic_at topic_name;
        let history := collections.elems (message_history topic) in
        let replay_messages := slice_from (- n) history in
        for_each replay_messages
          (λ msg_payload,
             send_json websocket
               (models.ServerEventMessage topic_name msg_payload))
      else mret tt
  end.

Definition unsubscribe (topic_name client_id : string) : Async World unit :=
  topics ← gets (λ w, _topics (broker w));
  match topics !! topic_name with
  | None => raise (ValueError "TOPIC_NOT_FOUND")
  | Some topic =>
      (if PyDict.contains client_id (subscribers topic)
       then del_subscriber topic_name client_id
       else mret tt);;
      modify (on_clients (discard_subscription client_id topic_name))
  end.

Definition publish (topic_name : string) (message : models.MessagePayload)
  : Async World unit :=
  topics ← gets (λ w, _topics (broker w));
  match topics !! topic_name with
  | None => raise (ValueError "TOPIC_NOT_FOUND")
  | Some _ =>
      modify (on_topics
                (alter (on_message_history (collections.append message))
                   topic_name));;
      modify (on_topics
                (alter (on_message_count (λ n, n + 1)%Z) topic_name));;
      let event := models.ServerEventMessage topic_name message in
      broadcast topic_name event
  end.

Definition disconnect_client (client_id : string) : Async World unit :=
  clients ← gets (λ w, _clients (broker w));
  match clients !! client_id with
  | Some s =>
      let topics_to_unsubscribe := elements s in
      for_each topics_to_unsubscribe
        (λ topic_name,
           topics ← gets (λ w, _topics (broker w));
           match topics !! topic_name with
           | Some topic =>
               if PyDict.contains client_id (subscribers topic)
               then del_subscriber topic_name client_id
               else mret tt
           | None => mret tt
           end);;
      modify (on_clients (delete client_id))
  | None => mret tt
  end.

End manager.

(** ** main.py: the websocket endpoint *)

Module main.
Import starlette models.

(** The state of one running endpoint: the world it shares with the other
    coroutines and its local [client_id]. *)
Record Endpoint := {
  world : manager.World;
  client_id : option string
}.

(** A call into the manager or the transport from the endpoint. *)
Definition await {A} (m : Async manager.World A) : Async Endpoint A :=
  λ s, let '(o, w) := m (world s) in
       (o, {| world := w; client_id := client_id s |}).

Definition assign_client_id (c : string) : Async Endpoint unit :=
  modify (λ s, {| world := world s; client_id := Some c |}).

(** [data.get(key)]; [None] stands for a missing key and for null alike. *)
Definition data_get (data : json) (key : string)
  : Async Endpoint (option json) :=
  match data with
  | JDict d => mret (PyDict.get key d)
  | _ => raise AttributeError
  end.

(** [msg_type == literal] *)
Definition is_literal (msg_type : option json) (literal : string) : bool :=
  match msg_type with
  | Some (JStr s) => bool_decide (s = literal)
  | _ => false
  end.

(** A constructor of [models]: the value, or [ValidationError]. *)
Definition construct {A} (v : validated A) : Async Endpoint A :=
  match v with
  | inr a => mret a
  | inl loc => raise (ValidationError loc)
  end.

(** The keyword arguments of a constructor call on the received object. *)
Definition kwargs (data : json) : pydict json :=
  match data with JDict d => d | _ => [] end.

Section endpoint.
Context `{Pydantic}.
Variable websocket : WebSocket.

(** The body of the inner [try]. *)
Definition dispatch (data : json) (msg_type request_id : option json)
  : Async Endpoint unit :=
  if is_literal msg_type "subscribe" then
    msg ← construct (validate_subscribe (kwargs data));
    assign_client_id (ClientSubscribeMessage.client_id msg);;
    await (manager.subscribe (ClientSubscribeMessage.topic msg)
             (ClientSubscribeMessage.client_id msg) websocket
             (ClientSubscribeMessage.last_n msg));;
    ack ← construct (new_ack request_id (ClientSubscribeMessage.topic msg));
    await (manager.send_json websocket ack)
  else if is_literal msg_type "unsubscribe" then
    msg ← construct (validate_unsubscribe (kwargs data));
    await (manager.unsubscribe (ClientUnsubscribeMessage.topic msg)
             (ClientUnsubscribeMessage.client_id msg));;
    ack ← construct (new_ack request_id (ClientUnsubscribeMessage.topic msg));
    await (manager.send_json websocket ack)
  else if is_literal msg_type "publish" then
    msg ← construct (validate_publish (kwargs data));
    await (manager.publish (ClientPublishMessage.topic msg)
             (ClientPublishMessage.message msg));;
    ack ← construct (new_ack request_id (ClientPublishMessage.topic msg));
    await (manager.send_json websocket ack)
  else if is_literal msg_type "ping" then
    msg ← construct (validate_ping (kwargs data));
    pong ← construct (new_pong request_id);
    await (manager.send_json websocket pong)
  else raise (ValueError "Unsupported message type").

(** The two [except] clauses of the inner [try]; [ValidationError] is
    matched first. *)
Definition handlers (request_id : option json) (e : exn)
  : option (Async Endpoint unit) :=
  match e with
  | ValidationError text =>
      Some (let error_payload :=
              {| code := "BAD_REQUEST"; message := text |} in
            error_msg ← construct (new_error request_id error_payload);
            await (manager.send_json websocket error_msg))
  | ValueError text =>
      Some (let error_payload :=
              {| code := text; message := "Operation failed" |} in
            error_msg ← construct (new_error request_id error_payload);
            await (manager.send_json websocket error_msg))
  | _ => None
  end.

(** One turn of [while True], for the received object [data]. *)
Definition on_frame (data : json) : Async Endpoint unit :=
  msg_type ← data_get data "type";
  request_id ← data_get data "request_id";
  try_except (dispatch data msg_type request_id) (handlers request_id).

(** The loop over the frames the peer sends before it goes away, at which
    point [receive_json] raises [WebSocketDisconnect]. *)
Fixpoint receive_loop (frames : list json) : Async Endpoint unit :=
  match frames with
  | [] => raise WebSocketDisconnect
  | data :: frames' => on_frame data;; receive_loop frames'
  end.

(** [if client_id:] *)
Definition truthy (c : option string) : option string :=
  match c with
  | Some s => if decide (s = EmptyString) then None else Some s
  | None => None
  end.

(** The [try ... except WebSocketDisconnect ... finally] of the endpoint. *)
Definition serve (frames : list json) : Async Endpoint unit :=
  try_finally
    (try_except (receive_loop frames)
       (λ e, match e with
             | WebSocketDisconnect => Some (mret tt)
             | _ => None
             end))
    (c ← gets client_id;
     match truthy c with
     | Some c => await (manager.disconnect_client c)
     | None => mret tt
     end).


End endpoint.

(** The REST endpoints.  The status of a success is the one of the route
    (201 for the creation, 200 for the others); a failure is the
    [HTTPException] of the manager, which carries its own status. *)
Definition create_topic (request : CreateTopicRequest.t)
  : Async manager.World TopicStatusResponse.t :=
  manager.create_topic (CreateTopicRequest.name request);;
  mret {| TopicStatusResponse.status := "created";
          TopicStatusResponse.topic := CreateTopicRequest.name request |}.

Definition delete_topic (name : string)
  : Async manager.World TopicStatusResponse.t :=
  manager.delete_topic name;;
  mret {| TopicStatusResponse.status := "deleted";
          TopicStatusResponse.topic := name |}.

Definition list_topics : Async manager.World ListTopicsResponse.t :=
  topics_list ← manager.list_topics;
  mret {| ListTopicsResponse.topics := topics_list |}.

(** [health_check]; [elapsed] is [int(time.time() - start_time)], read from
    the clock. *)
Definition health_check (elapsed : Z)
  : Async manager.World HealthResponse :=
  stats ← manager.get_health_stats;
  mret {| uptime_sec := elapsed;
          topics := topics stats;
          subscribers := subscribers stats |}.

Definition get_stats : Async manager.World (gmap string TopicStats) :=
  manager.get_full_stats.

End main.

(** ** Runs of the broker *)

Import starlette manager.

(** The operations of the broker that change its state. *)
Inductive call :=
| CreateTopic (name : string)
| DeleteTopic (name : string)
| Subscribe (topic_name client_id : string) (websocket : WebSocket)
    (last_n : option Z)
| Unsubscribe (topic_name client_id : string)
| Publish (topic_name : string) (message : models.MessagePayload)
| DisconnectClient (client_id : string).

Definition exec (c : call) : Async World unit :=
  match c with
  | CreateTopic name => create_topic name
  | DeleteTopic name => delete_topic name
  | Subscribe topic_name client_id websocket last_n =>
      subscribe topic_name client_id websocket last_n
  | Unsubscribe topic_name client_id => unsubscribe topic_name client_id
  | Publish topic_name message => publish topic_name message
  | DisconnectClient client_id => disconnect_client client_id
  end.

(** The world a fresh process starts in, whatever the sockets are. *)
Definition initial (socks : WebSocket → Socket) : World :=
  {| broker := PubSubManager_init; sockets := socks; wire := [] |}.

(** The states reached from a fresh process by completed operations whose
    outcome is [allowed], while peers and transport change the sockets at
    will between two operations. *)
Inductive reach (allowed : outcome unit → Prop) : World → Prop :=
| reach_initial socks : reach allowed (initial socks)
| reach_call w c :
    reach allowed w → allowed (exec c w).1 → reach allowed (exec c w).2
| reach_sockets w socks :
    reach allowed w → reach allowed (on_sockets (λ _, socks) w).

(** Every run, whatever the operations raised. *)
Definition reachable : World → Prop := reach (λ _, True).

(** The runs in which no operation was cut short by a failing transport. *)
Definition reachable_undisturbed : World → Prop :=
  reach (λ o, o ≠ Raise TransportFailure).

(** The state after a sequence of operations, and their outcomes. *)
Definition run (cs : list call) (w : World) : World :=
  foldl (λ w c, (exec c w).2) w cs.

Fixpoint outcomes (cs : list call) (w : World) : list (outcome unit) :=
  match cs with
  | [] => []
  | c :: cs' => (exec c w).1 :: outcomes cs' (exec c w).2
  end.

(** ** Predicates on worlds *)

(** A socket the fan-out takes for live. *)
Definition connected (w : World) (websocket : WebSocket) : Prop :=
  client_state (sockets w websocket) = Some CONNECTED.

#[export] Instance connected_dec w websocket : Decision (connected w websocket).
Proof. unfold connected. apply _. Defined.

(** A subscriber a frame can be delivered to: if its socket looks live, the
    transport under it takes the frame. *)
Definition deliverable (w : World) (kv : string * WebSocket) : Prop :=
  connected w kv.2 → transport_up (sockets w kv.2) = true.

#[export] Instance deliverable_dec w kv : Decision (deliverable w kv).
Proof. unfold deliverable. apply _. Defined.

(** The topic objects this program builds: named as their key, with a
    subscribers dictionary and a history bounded by 100. *)
Definition wf_topic (n : string) (t : Topic) : Prop :=
  name t = n ∧ PyDict.wf (subscribers t) ∧
  collections.maxlen (message_history t) = 100.

Definition sound_topic (n : string) (t : Topic) : Prop :=
  wf_topic n t ∧ length (collections.elems (message_history t)) ≤ 100.

Definition sound (w : World) : Prop :=
  ∀ n t, _topics (broker w) !! n = Some t → sound_topic n t.

(** [c] is a subscriber of the topic registered as [n]. *)
Definition subscribed (w : World) (n c : string) : Prop :=
  ∃ t, _topics (broker w) !! n = Some t ∧ c ∈ PyDict.keys (subscribers t).

(** The index entry of [c] holds [n]. *)
Definition listed (clients : gmap string (gset string)) (c n : string)
  : Prop :=
  ∃ s, clients !! c = Some s ∧ n ∈ s.

Definition no_empty (clients : gmap string (gset string)) : Prop :=
  ∀ c s, clients !! c = Some s → s ≠ ∅.


(** The half of it that the code keeps: the index covers the subscribers,
    and holds no empty entry. *)
Definition index_covers (w : World) : Prop :=
  ∀ n c, subscribed w n c → listed (_clients (broker w)) c n.

Definition index_no_empty (w : World) : Prop :=
  no_empty (_clients (broker w)).

Definition index_kept (w : World) : Prop :=
  index_covers w ∧ index_no_empty w.

(** ** What the operations compute, in closed form *)

(** The history entries [subscribe] replays for [last_n]. *)
Definition replay (last_n : Z) (history : list models.MessagePayload)
  : list models.MessagePayload :=
  if decide (last_n > 0)%Z then slice_from (- last_n) history else [].

(** What [delete_topic] writes for one subscriber. *)
Definition notice (w : World) (n : string) (kv : string * WebSocket)
  : list wire_event :=
  if decide (connected w kv.2)
  then [Sent kv.2 (models.ServerInfoMessage (Some n) "topic_deleted");
        Closed kv.2 1000]
  else [].

(** The index once [n] is discarded from the entries of the clients [cs]. *)
Definition discard_all (n : string) (cs : list string)
  (clients : gmap string (gset string)) : gmap string (gset string) :=
  foldl (λ cl c, discard_subscription c n cl) clients cs.

(** The registry once client [c] is removed from the topics named [ns]. *)
Definition remove_from (c : string) (ns : list string)
  (topics : gmap string Topic) : gmap string Topic :=
  foldl (λ m n, alter (on_subscribers (PyDict.delitem c)) n m) topics ns.

(** The last 100 elements of a list. *)
Definition most_recent {A} (l : list A) : list A := drop (length l - 100) l.

(** [len(topic.subscribers)] as [get_full_stats] reports it. *)
Definition subscriber_count (w : World) (topic_name : string) : option Z :=
  match get_full_stats w with
  | (Return stats, _) => models.subscriber_count <$> stats !! topic_name
  | (Raise _, _) => None
  end.


(** The payload that call [c] publishes on the topic [n], if any. *)
Definition published (c : call) (n : string)
  : option models.MessagePayload :=
  match c with
  | Publish topic_name message =>
      if decide (topic_name = n) then Some message else None
  | _ => None
  end.




(** ** Sessions *)

(** What the operations of a session rely on and maintain. *)
Definition kept (w : World) : Prop := sound w ∧ index_kept w.

Definition session_kept (s : main.Endpoint) : Prop := kept (main.world s).




(** ** Concrete worlds *)

Module scenario.

(** Three sockets: a live one, one whose peer has closed, and one that still
    looks live while its transport is gone. *)
Definition live : Socket :=
  {| client_state := Some CONNECTED; transport_up := true |}.

Definition closed : Socket :=
  {| client_state := Some DISCONNECTED; transport_up := false |}.

Definition stalled : Socket :=
  {| client_state := Some CONNECTED; transport_up := false |}.

(** Every socket is live at first; later the peer of socket 1 has closed and
    the transport under socket 2 is gone. *)
Definition all_live (websocket : WebSocket) : Socket := live.

Definition socks (websocket : WebSocket) : Socket :=
  match websocket with
  | 1 => closed
  | 2 => stalled
  | _ => live
  end.

Definition A : models.MessagePayload :=
  {| models.id := "00000000-0000-0000-0000-00000000000a";
     models.payload := [("k", models.JStr "v")] |}.

Definition B : models.MessagePayload :=
  {| models.id := "00000000-0000-0000-0000-00000000000b";
     models.payload := [] |}.

Definition C : models.MessagePayload :=
  {| models.id := "00000000-0000-0000-0000-00000000000c";
     models.payload := [] |}.

(** Topic ["t"] with no subscriber and three published messages. *)
Definition three_published : World :=
  run [CreateTopic "t"; Publish "t" A; Publish "t" B; Publish "t" C]
    (initial all_live).


(** Topic ["t"] with ["c"] on socket 0. *)
Definition one_subscriber : World :=
  run [CreateTopic "t"; Subscribe "t" "c" 0 (Some 0%Z)] (initial all_live).

(** ["c"] subscribes to ["t"] on socket 1, the sockets change, and a message
    is published. *)
Definition purged : World :=
  (exec (Publish "t" A)
     (on_sockets (λ _, socks)
        (run [CreateTopic "t"; Subscribe "t" "c" 1 (Some 0%Z)]
           (initial all_live)))).2.

(** ["c"] on socket 1, ["a"] on socket 2 and ["b"] on socket 0 subscribe in
    this order; then the sockets change. *)
Definition one_stalled : World :=
  on_sockets (λ _, socks)
    (run [CreateTopic "t";
          Subscribe "t" "c" 1 (Some 0%Z);
          Subscribe "t" "a" 2 (Some 0%Z);
          Subscribe "t" "b" 0 (Some 0%Z)]
       (initial all_live)).



(** Frames of a session: a ping, a ping whose [request_id] is a number, a
    publish without its message, and a subscribe, an unsubscribe and a
    publish on a topic. *)
Definition ping_frame : pydict models.json :=
  [("type", models.JStr "ping"); ("request_id", models.JStr "r2")].

Definition numbered_frame : pydict models.json :=
  [("type", models.JStr "ping"); ("request_id", models.JInt 7)].


Definition subscribe_frame (topic client_id : string)
  : pydict models.json :=
  [("type", models.JStr "subscribe"); ("topic", models.JStr topic);
   ("client_id", models.JStr client_id); ("last_n", models.JInt 2)].



(** The state of an endpoint that has bound no client id yet. *)
Definition fresh (w : World) : main.Endpoint :=
  {| main.world := w; main.client_id := None |}.

End scenario.

(** * Properties *)

(** ** Lists and dictionaries *)

Lemma filter_ext_in {A} (P1 P2 : A → Prop)
    `{!∀ x, Decision (P1 x), !∀ x, Decision (P2 x)} (l : list A) :
  (∀ x, x ∈ l → P1 x ↔ P2 x) → filter P1 l = filter P2 l.
Proof.
  induction l as [|a l IH]; intros Hl; [done|].
  rewrite !filter_cons.
  rewrite IH by (intros x Hx; apply Hl; by right).
  apply decide_ext, Hl. by left.
Qed.

Lemma filter_all {A} (P : A → Prop) `{!∀ x, Decision (P x)} (l : list A) :
  (∀ x, x ∈ l → P x) → filter P l = l.
Proof.
  induction l as [|a l IH]; intros Hl; [done|].
  rewrite filter_cons_True by (apply Hl; by left).
  rewrite IH; [done|]. intros x Hx. apply Hl. by right.
Qed.

Lemma contains_true {V} k (d : list (string * V)) :
  PyDict.contains k d = true ↔ k ∈ PyDict.keys d.
Proof. unfold PyDict.contains. by rewrite bool_decide_eq_true. Qed.

Lemma contains_false {V} k (d : list (string * V)) :
  PyDict.contains k d = false ↔ k ∉ PyDict.keys d.
Proof. unfold PyDict.contains. by rewrite bool_decide_eq_false. Qed.

Lemma keys_delitem {V} k k' (d : list (string * V)) :
  k' ∈ PyDict.keys (PyDict.delitem k d) ↔ k' ≠ k ∧ k' ∈ PyDict.keys d.
Proof.
  unfold PyDict.keys, PyDict.delitem. rewrite !list_elem_of_fmap. split.
  - intros [[a b] [-> [Hne Hin]%list_elem_of_filter]]. split; [done|].
    by exists (a, b).
  - intros [Hne [[a b] [-> Hin]]]. exists (a, b). split; [done|].
    by apply list_elem_of_filter.
Qed.

Lemma delitem_absent {V} k (d : list (string * V)) :
  k ∉ PyDict.keys d → PyDict.delitem k d = d.
Proof.
  intros Hk. apply filter_all. intros [a b] Hin Heq. cbn in Heq. subst a.
  apply Hk. apply list_elem_of_fmap. by exists (k, b).
Qed.

Lemma keys_filter {V} (P : string * V → Prop) `{!∀ x, Decision (P x)}
    (d : list (string * V)) k :
  k ∈ PyDict.keys (filter P d) → k ∈ PyDict.keys d.
Proof.
  unfold PyDict.keys.
  intros [[a b] [-> [_ Hin]%list_elem_of_filter]]%list_elem_of_fmap.
  apply list_elem_of_fmap. by exists (a, b).
Qed.

Lemma keys_filter_NoDup {V} (P : string * V → Prop) `{!∀ x, Decision (P x)}
    (d : list (string * V)) :
  PyDict.wf d → NoDup (filter P d).*1.
Proof.
  unfold PyDict.wf, PyDict.keys. intros Hd.
  eapply sublist_NoDup; [exact Hd|]. apply fmap_sublist, sublist_filter.
Qed.

Lemma wf_unique {V} (d : list (string * V)) k v v' :
  PyDict.wf d → (k, v) ∈ d → (k, v') ∈ d → v = v'.
Proof.
  unfold PyDict.wf, PyDict.keys.
  induction d as [|[k0 v0] d IH]; intros Hd H1 H2.
  - by apply elem_of_nil in H1.
  - cbn in Hd. apply NoDup_cons in Hd as [Hk Hd].
    apply elem_of_cons in H1 as [H1|H1], H2 as [H2|H2].
    + congruence.
    + destruct Hk. apply list_elem_of_fmap. exists (k, v'). by simplify_eq.
    + destruct Hk. apply list_elem_of_fmap. exists (k, v). by simplify_eq.
    + by apply IH.
Qed.

Lemma wf_filter {V} (P : string * V → Prop) `{!∀ x, Decision (P x)}
    (d : list (string * V)) :
  PyDict.wf d → PyDict.wf (filter P d).
Proof. apply keys_filter_NoDup. Qed.

Lemma wf_delitem {V} k (d : list (string * V)) :
  PyDict.wf d → PyDict.wf (PyDict.delitem k d).
Proof. apply wf_filter. Qed.

Lemma keys_setitem {V} k (v : V) (d : list (string * V)) :
  PyDict.keys (PyDict.setitem k v d) =
    if decide (k ∈ PyDict.keys d) then PyDict.keys d else PyDict.keys d ++ [k].
Proof.
  unfold PyDict.keys. induction d as [|[k' v'] d IH]; [done|].
  cbn [PyDict.setitem]. destruct (decide (k' = k)) as [->|Hne].
  - rewrite decide_True; [done|]. cbn. by left.
  - cbn [fmap list_fmap fst]. rewrite IH.
    destruct (decide (k ∈ d.*1)) as [Hin|Hin].
    + rewrite decide_True; [done|]. by right.
    + rewrite decide_False; [done|].
      intros [?|?]%elem_of_cons; [congruence|done].
Qed.

Lemma wf_setitem {V} k (v : V) (d : list (string * V)) :
  PyDict.wf d → PyDict.wf (PyDict.setitem k v d).
Proof.
  unfold PyDict.wf. rewrite keys_setitem. intros Hd. case_decide; [done|].
  apply NoDup_app. split; [done|]. split; [|apply NoDup_singleton].
  intros x Hx Hin%list_elem_of_singleton. by subst.
Qed.

Lemma delitem_setitem {V} k (v : V) (d : list (string * V)) :
  PyDict.delitem k (PyDict.setitem k v d) = PyDict.delitem k d.
Proof.
  unfold PyDict.delitem. induction d as [|[k' v'] d IH]; cbn [PyDict.setitem].
  - by rewrite filter_cons_False by (cbn; tauto).
  - destruct (decide (k' = k)) as [->|Hne].
    + by rewrite !filter_cons_False by (cbn; tauto).
    + rewrite !filter_cons_True by done. by rewrite IH.
Qed.

Lemma length_delitem_present {V} k (d : list (string * V)) :
  PyDict.wf d → k ∈ PyDict.keys d →
  length (PyDict.delitem k d) + 1 = length d.
Proof.
  unfold PyDict.wf, PyDict.keys, PyDict.delitem.
  induction d as [|[k' v'] d IH]; intros Hd Hk.
  - by apply elem_of_nil in Hk.
  - cbn in Hd, Hk. apply NoDup_cons in Hd as [Hk' Hd].
    destruct (decide (k' = k)) as [->|Hne].
    + rewrite filter_cons_False by (cbn; tauto).
      fold (PyDict.delitem k d). rewrite delitem_absent by done. cbn. lia.
    + rewrite filter_cons_True by done. cbn.
      apply elem_of_cons in Hk as [?|Hk]; [congruence|]. rewrite <- IH; done.
Qed.

Lemma purge_is_filter (P : string * WebSocket → Prop)
    `{!∀ x, Decision (P x)} (d : list (string * WebSocket)) :
  PyDict.wf d →
  filter (λ kv, kv.1 ∉ (filter (λ kv, ¬ P kv) d).*1) d = filter P d.
Proof.
  intros Hd. apply filter_ext_in. intros [k v] Hin. cbn.
  rewrite list_elem_of_fmap. split.
  - intros Hn. destruct (decide (P (k, v))) as [|Hp]; [done|].
    destruct Hn. exists (k, v). split; [done|]. by apply list_elem_of_filter.
  - intros Hp [[k' v'] [Hk [Hnp Hin']%list_elem_of_filter]]. cbn in Hk.
    subst k'.
    assert (v = v') as -> by (eapply wf_unique; eauto). done.
Qed.

(** ** Deques and slices *)

Lemma append_elems {A} (x : A) (q : collections.deque A) :
  collections.maxlen q = 100 →
  length (collections.elems q) ≤ 100 →
  collections.elems (collections.append x q) =
    (if decide (length (collections.elems q) = 100)
     then drop 1 (collections.elems q) else collections.elems q) ++ [x].
Proof.
  intros Hmax Hlen. unfold collections.append. cbn. rewrite Hmax, length_app.
  cbn.
  destruct (decide (length (collections.elems q) = 100)) as [Heq|Hne].
  - rewrite decide_True by lia. rewrite drop_app_le by lia. done.
  - rewrite decide_False by lia. done.
Qed.

(** The bound of a deque is kept by [append]. *)
Lemma append_bounded {A} (x : A) (q : collections.deque A) :
  0 < collections.maxlen q →
  length (collections.elems q) ≤ collections.maxlen q →
  length (collections.elems (collections.append x q)) ≤ collections.maxlen q.
Proof.
  intros Hpos Hq. unfold collections.append. cbn.
  case_decide; rewrite ?length_drop, ?length_app in *; cbn in *; lia.
Qed.

Lemma most_recent_snoc {A} (l : list A) (x : A) :
  most_recent (most_recent l ++ [x]) = most_recent (l ++ [x]).
Proof.
  unfold most_recent. rewrite !length_app, length_drop. cbn.
  destruct (decide (length l ≤ 100)) as [Hle|Hgt].
  - replace (length l - 100) with 0 by lia. cbn.
    by replace (length l - 0 + 1 - 100) with (length l + 1 - 100) by lia.
  - replace (length l - (length l - 100) + 1 - 100) with 1 by lia.
    rewrite !drop_app_le by (rewrite ?length_drop; lia).
    rewrite drop_drop. f_equal. f_equal. lia.
Qed.

Lemma most_recent_app {A} (l ms : list A) :
  most_recent (most_recent l ++ ms) = most_recent (l ++ ms).
Proof.
  induction ms as [|x ms IH] using rev_ind.
  - rewrite !app_nil_r. unfold most_recent. rewrite length_drop, drop_drop.
    f_equal. lia.
  - rewrite !app_assoc. by rewrite <- most_recent_snoc, IH, most_recent_snoc.
Qed.

Lemma append_most_recent {A} (x : A) (q : collections.deque A) :
  collections.maxlen q = 100 →
  length (collections.elems q) ≤ 100 →
  collections.elems (collections.append x q) =
    most_recent (collections.elems q ++ [x]).
Proof.
  intros Hmax Hlen. rewrite append_elems by done. unfold most_recent.
  rewrite length_app. cbn. case_decide as Heq.
  - rewrite Heq. replace (100 + 1 - 100) with 1 by lia.
    rewrite drop_app_le by lia. done.
  - by replace (length (collections.elems q) + 1 - 100) with 0 by lia.
Qed.


(** ** The subscription index *)

Lemma lookup_discard_ne c c' n (cl : gmap string (gset string)) :
  c ≠ c' → discard_subscription c n cl !! c' = cl !! c'.
Proof.
  intros Hne. unfold discard_subscription.
  destruct (cl !! c) as [s|]; [|done].
  case_decide; [by rewrite lookup_delete_ne|by rewrite lookup_insert_ne].
Qed.

Lemma lookup_discard_eq c n (cl : gmap string (gset string)) :
  discard_subscription c n cl !! c =
    s ← cl !! c; if decide (s ∖ {[n]} = ∅) then None else Some (s ∖ {[n]}).
Proof.
  unfold discard_subscription. destruct (cl !! c) as [s|] eqn:Hs; cbn; [|done].
  case_decide; [by rewrite lookup_delete_eq|by rewrite lookup_insert_eq].
Qed.

Lemma listed_discard c c' n i cl :
  (c' ≠ c ∨ i ≠ n) → listed cl c' i → listed (discard_subscription c n cl) c' i.
Proof.
  intros Hor (s & Hs & Hi). destruct (decide (c = c')) as [->|Hne].
  - destruct Hor as [?|Hin]; [done|]. exists (s ∖ {[n]}).
    rewrite lookup_discard_eq, Hs. cbn.
    rewrite decide_False by set_solver. split; [done|set_solver].
  - exists s. by rewrite lookup_discard_ne.
Qed.

Lemma no_empty_discard c n cl :
  no_empty cl → no_empty (discard_subscription c n cl).
Proof.
  intros Hcl c' s. destruct (decide (c = c')) as [->|Hne].
  - rewrite lookup_discard_eq. destruct (cl !! c') as [s'|]; [|done]. cbn.
    case_decide; [done|]. by intros [= <-].
  - rewrite lookup_discard_ne by done. apply Hcl.
Qed.

Lemma listed_discard_all n cs cl c' i :
  i ≠ n → listed cl c' i → listed (discard_all n cs cl) c' i.
Proof.
  intros Hne. revert cl. induction cs as [|c cs IH]; intros cl Hl; [done|].
  cbn. apply IH. apply listed_discard; [by right|done].
Qed.

Lemma no_empty_discard_all n cs cl :
  no_empty cl → no_empty (discard_all n cs cl).
Proof.
  revert cl. induction cs as [|c cs IH]; intros cl Hl; [done|].
  cbn. apply IH. by apply no_empty_discard.
Qed.



Lemma listed_add c n c' i cl :
  listed (add_subscription c n cl) c' i ↔ listed cl c' i ∨ (c' = c ∧ i = n).
Proof.
  unfold listed, add_subscription. destruct (decide (c = c')) as [->|Hne].
  - rewrite lookup_insert_eq. split.
    + intros (s & [= <-] & Hi). apply elem_of_union in Hi as [Hi|Hi].
      * left. destruct (cl !! c') as [s'|]; [by exists s'|]. cbn in Hi.
        set_solver.
      * right. set_solver.
    + intros [(s & Hs & Hi)|[_ ->]]; eexists; (split; [done|]).
      * rewrite Hs. cbn. set_solver.
      * set_solver.
  - rewrite lookup_insert_ne by done. split; [by left|].
    intros [?|[? _]]; [done|congruence].
Qed.

Lemma no_empty_add c n cl : no_empty cl → no_empty (add_subscription c n cl).
Proof.
  intros Hcl c' s. unfold add_subscription.
  destruct (decide (c = c')) as [->|Hne].
  - rewrite lookup_insert_eq. intros [= <-]. set_solver.
  - rewrite lookup_insert_ne by done. apply Hcl.
Qed.

(** ** Worlds and the registry *)

Lemma World_eq b1 s1 l1 b2 s2 l2 :
  b1 = b2 → s1 = s2 → l1 = l2 →
  {| broker := b1; sockets := s1; wire := l1 |} =
  {| broker := b2; sockets := s2; wire := l2 |}.
Proof. by intros -> -> ->. Qed.

Lemma World_eta w :
  {| broker := {| _topics := _topics (broker w);
                  _clients := _clients (broker w) |};
     sockets := sockets w;
     wire := wire w |} = w.
Proof. by destruct w as [[??]??]. Qed.

Lemma alter_as_insert (f : Topic → Topic) n t (m : gmap string Topic) :
  m !! n = Some t → alter f n m = <[n := f t]> m.
Proof.
  intros Ht. apply map_eq. intros i. destruct (decide (n = i)) as [->|Hne].
  - by rewrite lookup_alter_eq, lookup_insert_eq, Ht.
  - by rewrite lookup_alter_ne, lookup_insert_ne.
Qed.

Lemma on_topics_insert_alter f self X w :
  on_topics <[self := X]> (on_topics (alter f self) w) =
  on_topics <[self := X]> w.
Proof.
  unfold on_topics. cbn. do 2 f_equal.
  apply map_eq. intros i. destruct (decide (self = i)) as [->|Hne].
  - by rewrite !lookup_insert_eq.
  - by rewrite !lookup_insert_ne, lookup_alter_ne.
Qed.

Lemma lookup_remove_from c ns (topics : gmap string Topic) i :
  NoDup ns →
  remove_from c ns topics !! i =
    if decide (i ∈ ns) then on_subscribers (PyDict.delitem c) <$> topics !! i
    else topics !! i.
Proof.
  revert topics. induction ns as [|n ns IH]; intros topics Hnd; [done|].
  apply NoDup_cons in Hnd as [Hn Hnd].
  change (remove_from c (n :: ns) topics)
    with (remove_from c ns
            (alter (on_subscribers (PyDict.delitem c)) n topics)).
  rewrite IH by done.
  destruct (decide (i = n)) as [->|Hne].
  - rewrite decide_False by done. rewrite decide_True by (by left).
    by rewrite lookup_alter_eq.
  - rewrite lookup_alter_ne by done.
    destruct (decide (i ∈ ns)) as [Hi|Hi].
    + by rewrite decide_True by (by right).
    + rewrite decide_False; [done|]. intros [?|?]%elem_of_cons; done.
Qed.

(** ** The loops of the manager *)

(** Unfolds the monad and the primitive actions, for a proof that steps
    through the body of an operation. *)
Ltac unfold_async :=
  unfold getattr_client_state, send_json, close, topic_at, int_operand,
    mbind, Async_bind, mret, Async_ret, gets, modify, raise in *.


Lemma fan_out_loop (message : models.ServerMessage) l acc w :
  Forall (deliverable w) l →
  for_fold l acc
      (λ disconnected_clients '(client_id, websocket),
         state ← getattr_client_state websocket;
         if decide (state = Some CONNECTED)
         then send_json websocket message;; mret disconnected_clients
         else mret (disconnected_clients ++ [client_id])) w
  = (Return (acc ++ (filter (λ kv, ¬ connected w kv.2) l).*1),
     {| broker := broker w; sockets := sockets w;
        wire := wire w ++
                ((λ kv, Sent kv.2 message) <$>
                 filter (λ kv, connected w kv.2) l) |}).
Proof.
  intros Hl. revert acc w Hl.
  induction l as [|[c ws] l IH]; intros acc w Hl.
  - destruct w. cbn. by rewrite !app_nil_r.
  - apply Forall_cons in Hl as [Hc Hl].
    rewrite filter_cons, (filter_cons (λ kv, connected w kv.2)).
    unfold deliverable, connected in Hc. unfold connected at 1 3.
    cbn [for_fold snd] in *. unfold_async.
    destruct (decide (client_state (sockets w ws) = Some CONNECTED))
      as [Hst|Hst].
    + rewrite (Hc Hst).
      destruct (decide (_ ≠ _)) as [Hn|_]; [destruct (Hn Hst)|].
      destruct (decide (connected w ws)) as [_|Hn]; [|destruct (Hn Hst)].
      rewrite IH by done. cbn. by rewrite <- app_assoc.
    + destruct (decide (_ ≠ _)) as [_|Hn]; [|destruct (Hn Hst)].
      destruct (decide (connected w ws)) as [Hn|_]; [destruct (Hst Hn)|].
      rewrite IH by done. cbn. by rewrite <- app_assoc.
Qed.

Lemma fan_out_loop_fails (message : models.ServerMessage) l1 c ws l2 acc w :
  Forall (deliverable w) l1 →
  connected w ws →
  transport_up (sockets w ws) = false →
  for_fold (l1 ++ (c, ws) :: l2) acc
      (λ disconnected_clients '(client_id, websocket),
         state ← getattr_client_state websocket;
         if decide (state = Some CONNECTED)
         then send_json websocket message;; mret disconnected_clients
         else mret (disconnected_clients ++ [client_id])) w
  = (Raise TransportFailure,
     {| broker := broker w; sockets := sockets w;
        wire := wire w ++
                ((λ kv, Sent kv.2 message) <$>
                 filter (λ kv, connected w kv.2) l1) |}).
Proof.
  intros Hl Hc Hdown. revert acc w Hl Hc Hdown.
  induction l1 as [|[c1 ws1] l1 IH]; intros acc w Hl Hc Hdown.
  - cbn [for_fold app]. unfold_async. unfold connected in Hc.
    rewrite decide_True by done. rewrite Hdown.
    destruct w; cbn. by rewrite app_nil_r.
  - apply Forall_cons in Hl as [Hc1 Hl].
    rewrite filter_cons.
    unfold deliverable, connected in Hc1. unfold connected at 1.
    cbn [for_fold app snd] in *. unfold_async.
    destruct (decide (client_state (sockets w ws1) = Some CONNECTED))
      as [Hst|Hst].
    + rewrite (Hc1 Hst). rewrite IH by done. cbn. by rewrite <- app_assoc.
    + rewrite IH by done. done.
Qed.

Lemma first_undeliverable w (l : list (string * WebSocket)) :
  ¬ Forall (deliverable w) l →
  ∃ l1 c ws l2, l = l1 ++ (c, ws) :: l2 ∧ Forall (deliverable w) l1 ∧
    connected w ws ∧ transport_up (sockets w ws) = false.
Proof.
  induction l as [|[c ws] l IH]; intros Hn.
  - destruct Hn. constructor.
  - destruct (decide (deliverable w (c, ws))) as [Hd|Hd].
    + destruct IH as (l1 & c' & ws' & l2 & -> & H1 & H2 & H3).
      { intros Hl. apply Hn. by constructor. }
      exists ((c, ws) :: l1), c', ws', l2. split; [done|].
      split; [by constructor|done].
    + exists [], c, ws, l. split; [done|]. split; [constructor|].
      unfold deliverable in Hd. cbn in Hd.
      destruct (decide (connected w ws)) as [Hc|Hc]; [|tauto].
      split; [done|]. destruct (transport_up (sockets w ws)); [tauto|done].
Qed.

Lemma purge_loop self ks w t :
  _topics (broker w) !! self = Some t →
  NoDup ks →
  (∀ k, k ∈ ks → k ∈ PyDict.keys (subscribers t)) →
  for_each ks (λ client_id, del_subscriber self client_id) w =
    (Return tt,
     on_topics <[self := on_subscribers (filter (λ kv, kv.1 ∉ ks)) t]> w).
Proof.
  revert w t. induction ks as [|k ks IH]; intros w t Ht Hnd Hin.
  - cbn. unfold mret, Async_ret. f_equal. unfold on_topics.
    rewrite <- (World_eta w) at 1. do 2 f_equal.
    symmetry. apply insert_id. rewrite Ht. f_equal.
    unfold on_subscribers. rewrite filter_all; [by destruct t|].
    intros x _. apply not_elem_of_nil.
  - apply NoDup_cons in Hnd as [Hk Hnd].
    cbn [for_each]. unfold mbind at 1, Async_bind at 1.
    unfold del_subscriber at 1. unfold_async. rewrite Ht.
    assert (PyDict.contains k (subscribers t) = true) as ->.
    { apply contains_true, Hin. by left. }
    erewrite IH; [| |done|].
    2:{ cbn. rewrite lookup_alter_eq, Ht. done. }
    2:{ intros k' Hk'. cbn. apply keys_delitem. split; [by intros ->|].
        apply Hin. by right. }
    f_equal. rewrite on_topics_insert_alter. do 2 f_equal.
    unfold on_subscribers; cbn. f_equal. unfold PyDict.delitem.
    rewrite list_filter_filter. apply list_filter_iff. intros [a b]. cbn.
    rewrite not_elem_of_cons. tauto.
Qed.

(** The replay loop of [subscribe]. *)
Lemma replay_loop n ws (msgs : list models.MessagePayload) w :
  transport_up (sockets w ws) = true →
  for_each msgs
    (λ msg_payload,
       send_json ws (models.ServerEventMessage n msg_payload)) w =
    (Return tt, {| broker := broker w; sockets := sockets w;
                   wire := wire w ++
                           ((λ m, Sent ws (models.ServerEventMessage n m))
                              <$> msgs) |}).
Proof.
  revert w. induction msgs as [|m msgs IH]; intros w Hup.
  - destruct w. cbn. by rewrite app_nil_r.
  - cbn [for_each]. unfold mbind at 1, Async_bind at 1. unfold send_json at 1.
    unfold_async. rewrite Hup. rewrite IH by done. cbn. by rewrite <- app_assoc.
Qed.

Lemma replay_loop_down n ws (msgs : list models.MessagePayload) w :
  transport_up (sockets w ws) = false →
  for_each msgs
    (λ msg_payload,
       send_json ws (models.ServerEventMessage n msg_payload)) w =
    (match msgs with [] => Return tt | _ => Raise TransportFailure end, w).
Proof.
  intros Hdown. destruct msgs as [|m msgs]; [done|].
  cbn [for_each]. unfold mbind at 1, Async_bind at 1. unfold send_json at 1.
  unfold_async. by rewrite Hdown.
Qed.

Lemma delete_loop n l w :
  Forall (deliverable w) l →
  for_each l
    (λ '(client_id, websocket),
       state ← getattr_client_state websocket;
       (if decide (state = Some CONNECTED)
        then send_json websocket
               (models.ServerInfoMessage (Some n) "topic_deleted");;
             close websocket 1000
        else mret tt);;
       modify (on_clients (discard_subscription client_id n))) w =
  (Return tt,
   {| broker := {| _topics := _topics (broker w);
                   _clients := discard_all n l.*1 (_clients (broker w)) |};
      sockets := sockets w;
      wire := wire w ++ (l ≫= notice w n) |}).
Proof.
  revert w. induction l as [|[c ws] l IH]; intros w Hl.
  - destruct w as [[]]. cbn. by rewrite app_nil_r.
  - apply Forall_cons in Hl as [Hc Hl].
    unfold deliverable, connected in Hc. cbn [snd] in Hc.
    cbn [for_each]. unfold mbind at 1, Async_bind at 1.
    unfold mbind at 1, Async_bind at 1, getattr_client_state at 1, gets at 1.
    unfold mbind at 1, Async_bind at 1.
    rewrite fmap_cons, bind_cons. unfold notice at 1, connected at 1.
    cbn [snd fst].
    destruct (decide (client_state (sockets w ws) = Some CONNECTED))
      as [Hst|Hst].
    + unfold send_json, close. unfold_async. rewrite (Hc Hst).
      cbn [on_wire sockets].
      rewrite (Hc Hst). rewrite IH by done. cbn. by rewrite <- !app_assoc.
    + unfold_async. rewrite IH by done. done.
Qed.

Lemma delete_loop_fails n l1 c ws l2 w :
  Forall (deliverable w) l1 →
  connected w ws →
  transport_up (sockets w ws) = false →
  for_each (l1 ++ (c, ws) :: l2)
    (λ '(client_id, websocket),
       state ← getattr_client_state websocket;
       (if decide (state = Some CONNECTED)
        then send_json websocket
               (models.ServerInfoMessage (Some n) "topic_deleted");;
             close websocket 1000
        else mret tt);;
       modify (on_clients (discard_subscription client_id n))) w =
  (Raise TransportFailure,
   {| broker := {| _topics := _topics (broker w);
                   _clients := discard_all n l1.*1 (_clients (broker w)) |};
      sockets := sockets w;
      wire := wire w ++ (l1 ≫= notice w n) |}).
Proof.
  revert w. induction l1 as [|[c1 ws1] l1 IH]; intros w Hl Hc Hdown.
  - cbn [app for_each]. unfold mbind at 1, Async_bind at 1.
    unfold mbind at 1, Async_bind at 1, getattr_client_state at 1, gets at 1.
    unfold mbind at 1, Async_bind at 1. unfold connected in Hc.
    rewrite decide_True by done. unfold send_json. unfold_async. rewrite Hdown.
    destruct w as [[]]. cbn. by rewrite app_nil_r.
  - apply Forall_cons in Hl as [Hc1 Hl].
    unfold deliverable, connected in Hc1. cbn [snd] in Hc1.
    cbn [for_each app]. unfold mbind at 1, Async_bind at 1.
    unfold mbind at 1, Async_bind at 1, getattr_client_state at 1, gets at 1.
    unfold mbind at 1, Async_bind at 1.
    rewrite fmap_cons, bind_cons. unfold notice at 1, connected at 1.
    cbn [snd fst].
    destruct (decide (client_state (sockets w ws1) = Some CONNECTED))
      as [Hst|Hst].
    + unfold send_json, close. unfold_async. rewrite (Hc1 Hst).
      cbn [on_wire sockets].
      rewrite (Hc1 Hst). rewrite IH by done. cbn. by rewrite <- !app_assoc.
    + unfold_async. rewrite IH by done. done.
Qed.

Lemma del_subscriber_found w n t c :
  _topics (broker w) !! n = Some t →
  c ∈ PyDict.keys (subscribers t) →
  del_subscriber n c w =
    (Return tt, on_topics <[n := on_subscribers (PyDict.delitem c) t]> w).
Proof.
  intros Ht Hc. unfold del_subscriber. unfold_async. rewrite Ht.
  apply contains_true in Hc. rewrite Hc. unfold on_topics.
  by rewrite (alter_as_insert _ _ t).
Qed.

(** [if client_id in topic.subscribers: del topic.subscribers[client_id]] *)
Lemma guarded_del w n t c :
  _topics (broker w) !! n = Some t →
  (if PyDict.contains c (subscribers t) then del_subscriber n c
   else mret tt) w =
    (Return tt, on_topics <[n := on_subscribers (PyDict.delitem c) t]> w).
Proof.
  intros Ht. destruct (PyDict.contains c (subscribers t)) eqn:Hc.
  - apply del_subscriber_found; [done|]. by apply contains_true.
  - apply contains_false in Hc. unfold mret, Async_ret. f_equal.
    unfold on_topics, on_subscribers. rewrite delitem_absent by done.
    rewrite insert_id; [by destruct w as [[]]|]. rewrite Ht. by destruct t.
Qed.

Lemma disconnect_loop c ns w :
  for_each ns
    (λ topic_name,
       topics ← gets (λ w, _topics (broker w));
       match topics !! topic_name with
       | Some topic =>
           if PyDict.contains c (subscribers topic)
           then del_subscriber topic_name c
           else mret tt
       | None => mret tt
       end) w =
  (Return tt, on_topics (remove_from c ns) w).
Proof.
  revert w. induction ns as [|n ns IH]; intros w.
  - by destruct w as [[]].
  - cbn [for_each]. unfold mbind at 1, Async_bind at 1.
    unfold mbind at 1, Async_bind at 1, gets at 1. cbn beta iota.
    destruct (_topics (broker w) !! n) as [t|] eqn:Ht.
    + rewrite (guarded_del w n t c Ht). rewrite IH.
      unfold on_topics, remove_from. cbn. by rewrite (alter_as_insert _ _ t).
    + unfold mret at 1, Async_ret at 1. rewrite IH.
      unfold on_topics, remove_from. cbn. do 4 f_equal.
      symmetry. apply alter_id. intros x. by rewrite Ht.
Qed.

(** ** The operations in closed form *)

Lemma create_topic_run w n :
  create_topic n w =
    match _topics (broker w) !! n with
    | Some _ => (Raise (HTTPException 409 "Topic already exists"), w)
    | None => (Return tt, on_topics <[n := Topic_init n]> w)
    end.
Proof.
  unfold create_topic. unfold_async.
  destruct (_topics (broker w) !! n) as [t|] eqn:Ht.
  - rewrite decide_True; [done|]. by exists t.
  - rewrite decide_False; [done|]. by intros [? ?].
Qed.

Lemma publish_ok w n t m :
  _topics (broker w) !! n = Some t →
  PyDict.wf (subscribers t) →
  Forall (deliverable w) (subscribers t) →
  publish n m w =
    (Return tt,
     {| broker :=
          {| _topics :=
               <[n := {| name := name t;
                         subscribers :=
                           filter (λ kv, connected w kv.2) (subscribers t);
                         message_history :=
                           collections.append m (message_history t);
                         message_count := message_count t + 1 |}]>
                 (_topics (broker w));
             _clients := _clients (broker w) |};
        sockets := sockets w;
        wire := wire w ++
                ((λ kv, Sent kv.2 (models.ServerEventMessage n m)) <$>
                 filter (λ kv, connected w kv.2) (subscribers t)) |}).
Proof.
  intros Ht Hwf Hs. unfold publish, broadcast.
  unfold mbind at 1, Async_bind at 1, gets at 1. cbn beta iota. rewrite Ht.
  unfold mbind at 1, Async_bind at 1, modify at 1.
  unfold mbind at 1, Async_bind at 1, modify at 1.
  unfold mbind at 1, Async_bind at 1, topic_at at 1.
  unfold mbind at 1, Async_bind at 1, gets at 1. cbn beta iota.
  cbn [on_topics broker _topics].
  rewrite !lookup_alter_eq, Ht. cbn [fmap option_fmap option_map].
  unfold mret at 1, Async_ret at 1.
  unfold mbind at 1, Async_bind at 1.
  cbn [on_message_count on_message_history subscribers].
  rewrite fan_out_loop by done.
  cbn [app].
  erewrite purge_loop.
  2:{ cbn. rewrite !lookup_alter_eq, Ht. done. }
  2:{ by apply keys_filter_NoDup. }
  2:{ cbn. intros k [[k' v] [-> [_ Hin]%list_elem_of_filter]]%list_elem_of_fmap.
      apply list_elem_of_fmap. by exists (k', v). }
  f_equal. unfold on_topics, on_subscribers. cbn.
  apply World_eq; [|done|done]. f_equal.
  - apply map_eq. intros i. destruct (decide (n = i)) as [->|Hne].
    + rewrite !lookup_insert_eq. f_equal. f_equal.
      by apply (purge_is_filter (λ kv, connected w kv.2)).
    + by rewrite !lookup_insert_ne, !lookup_alter_ne.
Qed.

Lemma publish_fails w n t m l1 c ws l2 :
  _topics (broker w) !! n = Some t →
  subscribers t = l1 ++ (c, ws) :: l2 →
  Forall (deliverable w) l1 →
  connected w ws →
  transport_up (sockets w ws) = false →
  publish n m w =
    (Raise TransportFailure,
     {| broker :=
          {| _topics :=
               <[n := {| name := name t;
                         subscribers := subscribers t;
                         message_history :=
                           collections.append m (message_history t);
                         message_count := message_count t + 1 |}]>
                 (_topics (broker w));
             _clients := _clients (broker w) |};
        sockets := sockets w;
        wire := wire w ++
                ((λ kv, Sent kv.2 (models.ServerEventMessage n m)) <$>
                 filter (λ kv, connected w kv.2) l1) |}).
Proof.
  intros Ht Hs Hl Hc Hdown. unfold publish, broadcast.
  unfold mbind at 1, Async_bind at 1, gets at 1. cbn beta iota. rewrite Ht.
  unfold mbind at 1, Async_bind at 1, modify at 1.
  unfold mbind at 1, Async_bind at 1, modify at 1.
  unfold mbind at 1, Async_bind at 1, topic_at at 1.
  unfold mbind at 1, Async_bind at 1, gets at 1. cbn beta iota.
  cbn [on_topics broker _topics].
  rewrite !lookup_alter_eq, Ht. cbn [fmap option_fmap option_map].
  unfold mret at 1, Async_ret at 1.
  unfold mbind at 1, Async_bind at 1.
  cbn [on_message_count on_message_history subscribers PyDict.items].
  unfold PyDict.items. rewrite Hs.
  rewrite fan_out_loop_fails by done.
  f_equal. cbn. apply World_eq; [|done|done]. f_equal.
  apply map_eq. intros i. destruct (decide (n = i)) as [->|Hne].
  - rewrite lookup_insert_eq, !lookup_alter_eq, Ht, <- Hs. done.
  - by rewrite lookup_insert_ne, !lookup_alter_ne.
Qed.

Lemma publish_missing w n m :
  _topics (broker w) !! n = None →
  publish n m w = (Raise (ValueError "TOPIC_NOT_FOUND"), w).
Proof.
  intros Ht. unfold publish.
  unfold mbind at 1, Async_bind at 1, gets at 1. cbn beta iota. by rewrite Ht.
Qed.

Lemma subscribe_int w n t c ws k :
  _topics (broker w) !! n = Some t →
  subscribe n c ws (Some k) w =
   let w' := {| broker :=
          {| _topics := <[n := on_subscribers (PyDict.setitem c ws) t]>
                          (_topics (broker w));
             _clients := add_subscription c n (_clients (broker w)) |};
        sockets := sockets w;
        wire := wire w |} in
   for_each (replay k (collections.elems (message_history t)))
     (λ msg_payload, send_json ws (models.ServerEventMessage n msg_payload)) w'.
Proof.
  intros Ht. unfold subscribe.
  unfold mbind at 1, Async_bind at 1, gets at 1. cbn beta iota. rewrite Ht.
  unfold mbind at 1, Async_bind at 1, modify at 1.
  unfold mbind at 1, Async_bind at 1, modify at 1.
  unfold mbind at 1, Async_bind at 1, int_operand at 1, mret at 1,
    Async_ret at 1.
  pose proof (alter_as_insert (on_subscribers (PyDict.setitem c ws)) n t
                (_topics (broker w)) Ht) as Halt.
  unfold replay. cbn zeta.
  destruct (decide (k > 0)%Z) as [Hk|Hk].
  - unfold mbind at 1, Async_bind at 1, topic_at at 1.
    unfold mbind at 1, Async_bind at 1, gets at 1. cbn beta iota.
    unfold on_topics, on_clients.
    cbn [broker _topics _clients sockets wire].
    rewrite !Halt, lookup_insert_eq. unfold mret at 1, Async_ret at 1.
    cbn [on_subscribers message_history]. done.
  - unfold on_topics, on_clients.
    cbn [broker _topics _clients sockets wire for_each].
    by rewrite Halt.
Qed.

Lemma subscribe_none w n t c ws :
  _topics (broker w) !! n = Some t →
  subscribe n c ws None w =
    (Raise TypeError,
     {| broker :=
          {| _topics := <[n := on_subscribers (PyDict.setitem c ws) t]>
                          (_topics (broker w));
             _clients := add_subscription c n (_clients (broker w)) |};
        sockets := sockets w;
        wire := wire w |}).
Proof.
  intros Ht. unfold subscribe.
  unfold mbind at 1, Async_bind at 1, gets at 1. cbn beta iota. rewrite Ht.
  unfold_async. unfold on_clients, on_topics. cbn.
  by rewrite (alter_as_insert _ _ t).
Qed.

Lemma subscribe_missing w n c ws last_n :
  _topics (broker w) !! n = None →
  subscribe n c ws last_n w = (Raise (ValueError "TOPIC_NOT_FOUND"), w).
Proof.
  intros Ht. unfold subscribe.
  unfold mbind at 1, Async_bind at 1, gets at 1. cbn beta iota. by rewrite Ht.
Qed.

(** The broker part of the state after a [subscribe] that found its topic
    does not depend on how the replay went. *)
Lemma subscribe_broker w n t c ws last_n :
  _topics (broker w) !! n = Some t →
  broker (subscribe n c ws last_n w).2 =
    {| _topics := <[n := on_subscribers (PyDict.setitem c ws) t]>
                    (_topics (broker w));
       _clients := add_subscription c n (_clients (broker w)) |}.
Proof.
  intros Ht. destruct last_n as [k|].
  - rewrite (subscribe_int w n t) by done. cbn zeta.
    destruct (transport_up (sockets w ws)) eqn:Hup.
    + by rewrite replay_loop.
    + by rewrite replay_loop_down.
  - by rewrite (subscribe_none w n t).
Qed.


Lemma unsubscribe_found w n t c :
  _topics (broker w) !! n = Some t →
  unsubscribe n c w =
    (Return tt,
     {| broker :=
          {| _topics := <[n := on_subscribers (PyDict.delitem c) t]>
                          (_topics (broker w));
             _clients := discard_subscription c n (_clients (broker w)) |};
        sockets := sockets w;
        wire := wire w |}).
Proof.
  intros Ht. unfold unsubscribe.
  unfold mbind at 1, Async_bind at 1, gets at 1. cbn beta iota. rewrite Ht.
  unfold mbind at 1, Async_bind at 1. rewrite (guarded_del w n t c Ht).
  done.
Qed.

Lemma unsubscribe_missing w n c :
  _topics (broker w) !! n = None →
  unsubscribe n c w = (Raise (ValueError "TOPIC_NOT_FOUND"), w).
Proof.
  intros Ht. unfold unsubscribe.
  unfold mbind at 1, Async_bind at 1, gets at 1. cbn beta iota. by rewrite Ht.
Qed.

Lemma delete_topic_ok w n t :
  _topics (broker w) !! n = Some t →
  Forall (deliverable w) (subscribers t) →
  delete_topic n w =
    (Return tt,
     {| broker :=
          {| _topics := delete n (_topics (broker w));
             _clients := discard_all n (PyDict.keys (subscribers t))
                           (_clients (broker w)) |};
        sockets := sockets w;
        wire := wire w ++ (subscribers t ≫= notice w n) |}).
Proof.
  intros Ht Hl. unfold delete_topic.
  unfold mbind at 1, Async_bind at 1, gets at 1. cbn beta iota. rewrite Ht.
  cbn zeta. unfold mbind at 1, Async_bind at 1.
  unfold PyDict.items. rewrite delete_loop by done. done.
Qed.

Lemma delete_topic_fails w n t l1 c ws l2 :
  _topics (broker w) !! n = Some t →
  subscribers t = l1 ++ (c, ws) :: l2 →
  Forall (deliverable w) l1 →
  connected w ws →
  transport_up (sockets w ws) = false →
  delete_topic n w =
    (Raise TransportFailure,
     {| broker :=
          {| _topics := _topics (broker w);
             _clients := discard_all n l1.*1 (_clients (broker w)) |};
        sockets := sockets w;
        wire := wire w ++ (l1 ≫= notice w n) |}).
Proof.
  intros Ht Hs Hl Hc Hdown. unfold delete_topic.
  unfold mbind at 1, Async_bind at 1, gets at 1. cbn beta iota. rewrite Ht.
  cbn zeta. unfold mbind at 1, Async_bind at 1.
  unfold PyDict.items. rewrite Hs. rewrite delete_loop_fails by done. done.
Qed.

Lemma delete_topic_missing w n :
  _topics (broker w) !! n = None →
  delete_topic n w = (Raise (HTTPException 404 "Topic not found"), w).
Proof.
  intros Ht. unfold delete_topic.
  unfold mbind at 1, Async_bind at 1, gets at 1. cbn beta iota. by rewrite Ht.
Qed.

Lemma disconnect_client_run c w :
  disconnect_client c w =
    (Return tt,
     match _clients (broker w) !! c with
     | Some s =>
         {| broker :=
              {| _topics := remove_from c (elements s) (_topics (broker w));
                 _clients := delete c (_clients (broker w)) |};
            sockets := sockets w;
            wire := wire w |}
     | None => w
     end).
Proof.
  unfold disconnect_client.
  unfold mbind at 1, Async_bind at 1, gets at 1. cbn beta iota.
  destruct (_clients (broker w) !! c) as [s|]; [|done].
  cbn zeta. unfold mbind at 1, Async_bind at 1. by rewrite disconnect_loop.
Qed.

Lemma subscriber_count_lookup w n :
  subscriber_count w n =
    (λ t, Z.of_nat (length (subscribers t))) <$> _topics (broker w) !! n.
Proof.
  unfold subscriber_count, get_full_stats. unfold_async.
  rewrite lookup_fmap. by destruct (_topics (broker w) !! n).
Qed.

(** ** Invariants of the runs *)

Lemma sound_on_subscribers n t f :
  (PyDict.wf (subscribers t) → PyDict.wf (f (subscribers t))) →
  sound_topic n t → sound_topic n (on_subscribers f t).
Proof. intros Hf [(? & ? & ?) ?]. repeat split; auto. Qed.

Lemma sound_published n t m subs :
  PyDict.wf subs →
  sound_topic n t →
  sound_topic n {| name := name t; subscribers := subs;
                   message_history := collections.append m (message_history t);
                   message_count := message_count t + 1 |}.
Proof.
  intros Hs [(? & ? & Hmax) Hlen]. repeat split; auto. cbn.
  pose proof (append_bounded m (message_history t)) as Hb.
  rewrite Hmax in Hb. apply Hb; lia.
Qed.

Lemma sound_Topic_init n : sound_topic n (Topic_init n).
Proof.
  split; [split; [done|split; [apply NoDup_nil_2|done]]|]. cbn. lia.
Qed.

Lemma sound_insert w n t :
  sound w → sound_topic n t →
  ∀ i t', <[n := t]> (_topics (broker w)) !! i = Some t' → sound_topic i t'.
Proof.
  intros Hw Ht i t'. destruct (decide (n = i)) as [->|Hne].
  - rewrite lookup_insert_eq. by intros [= <-].
  - rewrite lookup_insert_ne by done. apply Hw.
Qed.

Lemma exec_sound c w : sound w → sound (exec c w).2.
Proof.
  intros Hw. destruct c as [n|n|n c ws last_n|n c|n m|c]; cbn [exec].
  - rewrite create_topic_run.
    destruct (_topics (broker w) !! n) eqn:Ht; [done|].
    intros i t'. cbn. apply sound_insert; [done|]. apply sound_Topic_init.
  - destruct (_topics (broker w) !! n) as [t|] eqn:Ht.
    + destruct (decide (Forall (deliverable w) (subscribers t))) as [Hl|Hl].
      * rewrite (delete_topic_ok w n t) by done. intros i t'. cbn.
        intros [_ ?]%lookup_delete_Some. by apply Hw.
      * apply first_undeliverable in Hl as (l1 & c & ws & l2 & ? & ? & ? & ?).
        rewrite (delete_topic_fails w n t l1 c ws l2) by done. done.
    + by rewrite delete_topic_missing.
  - destruct (_topics (broker w) !! n) as [t|] eqn:Ht.
    + intros i t'. rewrite (subscribe_broker w n t) by done. cbn.
      apply sound_insert; [done|]. apply sound_on_subscribers; [|by apply Hw].
      apply wf_setitem.
    + by rewrite subscribe_missing.
  - destruct (_topics (broker w) !! n) as [t|] eqn:Ht.
    + rewrite (unsubscribe_found w n t) by done. intros i t'. cbn.
      apply sound_insert; [done|]. apply sound_on_subscribers; [|by apply Hw].
      apply wf_delitem.
    + by rewrite unsubscribe_missing.
  - destruct (_topics (broker w) !! n) as [t|] eqn:Ht.
    + pose proof (Hw n t Ht) as Hst. pose proof Hst as [(_ & Hwf & _) _].
      destruct (decide (Forall (deliverable w) (subscribers t))) as [Hl|Hl].
      * rewrite (publish_ok w n t) by done. intros i t'. cbn.
        apply sound_insert; [done|]. apply sound_published; [|done].
        by apply wf_filter.
      * apply first_undeliverable in Hl as (l1 & c & ws & l2 & ? & ? & ? & ?).
        rewrite (publish_fails w n t m l1 c ws l2) by done. intros i t'. cbn.
        apply sound_insert; [done|]. by apply sound_published.
    + by rewrite publish_missing.
  - rewrite disconnect_client_run.
    destruct (_clients (broker w) !! c) as [s|] eqn:Hs; [|done].
    intros i t'. cbn. rewrite lookup_remove_from by apply NoDup_elements.
    case_decide; [|apply Hw].
    destruct (_topics (broker w) !! i) as [t|] eqn:Ht; [|done].
    intros [= <-]. apply sound_on_subscribers; [|by apply Hw].
    apply wf_delitem.
Qed.

Lemma reach_weaken (P Q : outcome unit → Prop) w :
  (∀ o, P o → Q o) → reach P w → reach Q w.
Proof. intros HPQ. induction 1; constructor; auto. Qed.

Lemma reachable_sound w : reachable w → sound w.
Proof.
  induction 1 as [socks|w c Hr IH _|w socks Hr IH].
  - intros n t. cbn. by rewrite lookup_empty.
  - by apply exec_sound.
  - done.
Qed.

Lemma reachable_run cs w : reachable w → reachable (run cs w).
Proof.
  revert w. induction cs as [|c cs IH]; intros w Hw; [done|].
  cbn. apply IH. by apply reach_call.
Qed.

Lemma reach_run (allowed : outcome unit → Prop) cs w :
  reach allowed w → Forall allowed (outcomes cs w) → reach allowed (run cs w).
Proof.
  revert w. induction cs as [|c cs IH]; intros w Hw Hall; [done|].
  cbn in Hall. apply Forall_cons in Hall as [Hc Hall].
  cbn. apply IH; [by apply reach_call|done].
Qed.

Lemma purged_reachable : reachable_undisturbed scenario.purged.
Proof.
  apply (reach_call _ _ (Publish "t" scenario.A)).
  - apply reach_sockets, reach_run; [apply reach_initial|].
    vm_compute. repeat constructor; discriminate.
  - vm_compute. discriminate.
Qed.

Lemma publish_history w n t m :
  sound w →
  _topics (broker w) !! n = Some t →
  (∃ t', _topics (broker (publish n m w).2) !! n = Some t' ∧
         message_history t' = collections.append m (message_history t) ∧
         message_count t' = (message_count t + 1)%Z) ∧
  _clients (broker (publish n m w).2) = _clients (broker w).
Proof.
  intros Hw Ht. pose proof (Hw n t Ht) as [(_ & Hwf & _) _].
  destruct (decide (Forall (deliverable w) (subscribers t))) as [Hl|Hl].
  - rewrite (publish_ok w n t) by done. cbn. rewrite lookup_insert_eq. eauto.
  - apply first_undeliverable in Hl as (l1 & c & ws & l2 & ? & ? & ? & ?).
    rewrite (publish_fails w n t m l1 c ws l2) by done. cbn.
    rewrite lookup_insert_eq. eauto.
Qed.

Lemma publish_many_history ms : ∀ w n t,
  sound w →
  _topics (broker w) !! n = Some t →
  ∃ t', _topics (broker (run (Publish n <$> ms) w)) !! n = Some t' ∧
        collections.elems (message_history t') =
          most_recent (collections.elems (message_history t) ++ ms).
Proof.
  induction ms as [|m ms IH]; intros w n t Hw Ht.
  - exists t. split; [done|]. rewrite app_nil_r. unfold most_recent.
    destruct (Hw n t Ht) as [_ Hlen].
    by replace (length (collections.elems (message_history t)) - 100)
      with 0 by lia.
  - destruct (publish_history w n t m Hw Ht) as [(t1 & Ht1 & Hh1 & _) _].
    destruct (IH (publish n m w).2 n t1) as (t' & Ht' & Hh'); [|done|].
    { apply (exec_sound (Publish n m)), Hw. }
    exists t'. split; [done|]. rewrite Hh', Hh1.
    destruct (Hw n t Ht) as [(_ & _ & Hmax) Hlen].
    rewrite append_most_recent by done.
    rewrite most_recent_app. by rewrite <- app_assoc.
Qed.

Lemma exec_index c w :
  sound w → index_kept w → (exec c w).1 ≠ Raise TransportFailure →
  index_kept (exec c w).2.
Proof.
  unfold index_kept, index_covers, index_no_empty.
  intros Hw [Hcov Hne] Hout.
  destruct c as [n|n|n c ws last_n|n c|n m|c]; cbn [exec] in *.
  - rewrite create_topic_run in *.
    destruct (_topics (broker w) !! n) eqn:Ht; [done|]. split; [|done].
    intros i c (t' & Hi & Hc). cbn in *. apply Hcov.
    destruct (decide (n = i)) as [->|Hni].
    + rewrite lookup_insert_eq in Hi. injection Hi as <-.
      by apply elem_of_nil in Hc.
    + rewrite lookup_insert_ne in Hi by done. by exists t'.
  - destruct (_topics (broker w) !! n) as [t|] eqn:Ht.
    + destruct (decide (Forall (deliverable w) (subscribers t))) as [Hl|Hl].
      * rewrite (delete_topic_ok w n t) in * by done. split.
        -- intros i c (t' & Hi & Hc). cbn in Hi |- *.
           apply lookup_delete_Some in Hi as [Hni Hi].
           apply listed_discard_all; [done|]. apply Hcov. by exists t'.
        -- by apply no_empty_discard_all.
      * apply first_undeliverable in Hl as (l1 & c & ws & l2 & ? & ? & ? & ?).
        rewrite (delete_topic_fails w n t l1 c ws l2) in Hout by done. done.
    + by rewrite delete_topic_missing.
  - destruct (_topics (broker w) !! n) as [t|] eqn:Ht.
    + unfold subscribed. rewrite (subscribe_broker w n t) by done.
      cbn. split; [|by apply no_empty_add].
      intros i c' (t' & Hi & Hc). apply listed_add.
      destruct (decide (n = i)) as [->|Hni].
      * rewrite lookup_insert_eq in Hi. injection Hi as <-.
        cbn [on_subscribers subscribers] in Hc.
        rewrite keys_setitem in Hc. case_decide.
        -- left. apply Hcov. by exists t.
        -- apply elem_of_app in Hc as [Hc|Hc%list_elem_of_singleton].
           ++ left. apply Hcov. by exists t.
           ++ by right.
      * rewrite lookup_insert_ne in Hi by done. left. apply Hcov. by exists t'.
    + by rewrite subscribe_missing.
  - destruct (_topics (broker w) !! n) as [t|] eqn:Ht.
    + rewrite (unsubscribe_found w n t) by done.
      split; [|by apply no_empty_discard].
      intros i c' (t' & Hi & Hc). cbn in *.
      destruct (decide (n = i)) as [->|Hni].
      * rewrite lookup_insert_eq in Hi. injection Hi as <-.
        cbn [on_subscribers subscribers] in Hc.
        apply keys_delitem in Hc as [Hcc Hc].
        apply listed_discard; [by left|]. apply Hcov. by exists t.
      * rewrite lookup_insert_ne in Hi by done.
        apply listed_discard; [by right|]. apply Hcov. by exists t'.
    + by rewrite unsubscribe_missing.
  - destruct (_topics (broker w) !! n) as [t|] eqn:Ht.
    + pose proof (Hw n t Ht) as [(_ & Hwf & _) _].
      destruct (decide (Forall (deliverable w) (subscribers t))) as [Hl|Hl].
      * rewrite (publish_ok w n t) by done. split; [|done].
        intros i c' (t' & Hi & Hc). cbn in *. apply Hcov.
        destruct (decide (n = i)) as [->|Hni].
        -- rewrite lookup_insert_eq in Hi. injection Hi as <-.
           cbn [on_subscribers subscribers] in Hc.
           exists t. split; [done|]. by eapply keys_filter.
        -- rewrite lookup_insert_ne in Hi by done. by exists t'.
      * apply first_undeliverable in Hl as (l1 & c & ws & l2 & ? & ? & ? & ?).
        rewrite (publish_fails w n t m l1 c ws l2) in Hout by done. done.
    + by rewrite publish_missing.
  - rewrite disconnect_client_run.
    destruct (_clients (broker w) !! c) as [s|] eqn:Hs; [|done]. split.
    + intros i c' (t' & Hi & Hc). cbn in *.
      rewrite lookup_remove_from in Hi by apply NoDup_elements.
      assert (c' ≠ c ∧ listed (_clients (broker w)) c' i)
        as [Hcc (s' & Hs' & Hin)].
      { case_decide as Hel.
        - destruct (_topics (broker w) !! i) as [t|] eqn:Ht; [|done].
          injection Hi as <-. cbn [on_subscribers subscribers] in Hc.
          apply keys_delitem in Hc as [Hcc Hc].
          split; [done|]. apply Hcov. by exists t.
        - assert (listed (_clients (broker w)) c' i) as Hl
            by (apply Hcov; by exists t').
          split; [|done]. intros ->. destruct Hl as (s' & Hs' & Hin).
          rewrite Hs in Hs'. injection Hs' as <-.
          by apply Hel, elem_of_elements. }
      exists s'. by rewrite lookup_delete_ne.
    + intros c' s'. cbn. intros [_ ?]%lookup_delete_Some. by eapply Hne.
Qed.

Lemma reachable_undisturbed_index w : reachable_undisturbed w → index_kept w.
Proof.
  induction 1 as [socks|w c Hr IH Hout|w socks Hr IH].
  - split.
    + intros n c (t & Ht & _). cbn in Ht. by rewrite lookup_empty in Ht.
    + intros c s. cbn. by rewrite lookup_empty.
  - apply exec_index; [|done..]. apply reachable_sound.
    eapply reach_weaken; [|exact Hr]. done.
  - done.
Qed.

(** ** The endpoint *)


(** ** The claims of the specification *)








Section unsupported_type.
Import models.
Context `{Pydantic}.
Variable websocket : WebSocket.



End unsupported_type.



(** C5, amended: on a registered topic [subscribe(t, c, ws, 0)] followed
    by [unsubscribe(t, c)] both return, and leave the subscriber count of
    [t] as it was when [c] was not a subscriber of [t] before, and one
    lower when it was. *)
Theorem subscribe_unsubscribe_count
    (w : World) (topic_name client_id : string) (websocket : WebSocket)
    (t : Topic) :
  reachable w →
  _topics (broker w) !! topic_name = Some t →
  let w1 := (subscribe topic_name client_id websocket (Some 0%Z) w).2 in
  let w2 := (unsubscribe topic_name client_id w1).2 in
  (subscribe topic_name client_id websocket (Some 0%Z) w).1 = Return tt ∧
  (unsubscribe topic_name client_id w1).1 = Return tt ∧
  (client_id ∉ PyDict.keys (subscribers t) →
   subscriber_count w2 topic_name = subscriber_count w topic_name) ∧
  (client_id ∈ PyDict.keys (subscribers t) →
   subscriber_count w2 topic_name =
     (λ n, n - 1)%Z <$> subscriber_count w topic_name).
Proof.
  intros Hr Ht w1 w2.
  destruct (reachable_sound w Hr topic_name t Ht) as [(_ & Hwf & _) _].
  pose proof (subscribe_int w topic_name t client_id websocket 0 Ht) as Hs.
  unfold replay in Hs. rewrite decide_False in Hs by lia. cbn in Hs.
  assert (_topics (broker w1) !! topic_name =
          Some (on_subscribers (PyDict.setitem client_id websocket) t)) as Ht1.
  { unfold w1. rewrite Hs. cbn. apply lookup_insert_eq. }
  pose proof (unsubscribe_found w1 topic_name _ client_id Ht1) as Hu.
  split; [by rewrite Hs|]. split; [by rewrite Hu|].
  assert (subscriber_count w2 topic_name =
          Some (Z.of_nat (length (PyDict.delitem client_id (subscribers t)))))
    as ->.
  { rewrite subscriber_count_lookup. unfold w2. rewrite Hu.
    cbn [snd broker _topics]. rewrite lookup_insert_eq.
    cbn [fmap option_fmap option_map on_subscribers subscribers].
    by rewrite delitem_setitem. }
  rewrite subscriber_count_lookup, Ht. cbn. split; intros Hc.
  - by rewrite delitem_absent.
  - f_equal. pose proof (length_delitem_present _ _ Hwf Hc). lia.
Qed.

Lemma subscribe_unsubscribe_witness :
  subscriber_count
    (run [Subscribe "t" "d" 0 (Some 0%Z); Unsubscribe "t" "d"]
       scenario.one_subscriber) "t" =
  subscriber_count scenario.one_subscriber "t".
Proof.
  pose proof (subscribe_unsubscribe_count scenario.one_subscriber "t" "d" 0
                {| name := "t";
                   subscribers := [("c", 0)];
                   message_history :=
                     {| collections.maxlen := 100;
                        collections.elems := [] |};
                   message_count := 0 |}
                ltac:(apply reachable_run, reach_initial)
                ltac:(vm_compute; reflexivity)) as (_ & _ & Hfresh & _).
  apply Hfresh. apply (bool_decide_unpack _). vm_compute. exact I.
Defined.

(** C5 as stated fails: a client that is already subscribed is not added a
    second time, and the unsubscribe removes it. *)
Lemma resubscribe_unsubscribe_loses_one :
  subscriber_count scenario.one_subscriber "t" = Some 1%Z ∧
  outcomes [Subscribe "t" "c" 0 (Some 0%Z); Unsubscribe "t" "c"]
    scenario.one_subscriber = [Return tt; Return tt] ∧
  subscriber_count
    (run [Subscribe "t" "c" 0 (Some 0%Z); Unsubscribe "t" "c"]
       scenario.one_subscriber) "t" = Some 0%Z.
Proof. vm_compute. done. Qed.




(** C7: the code does not do what the claim says.  With a subscriber whose
    socket looks connected while its transport is gone, the send raises out
    of [broadcast] and [publish]: the subscriber after it receives nothing
    and nobody is removed, not even the subscriber already found
    disconnected. *)
Theorem publish_send_failure_aborts_fan_out :
  (publish "t" scenario.A scenario.one_stalled).1 = Raise TransportFailure ∧
  subscribers <$>
    _topics (broker (publish "t" scenario.A scenario.one_stalled).2) !! "t" =
    Some [("c", 1); ("a", 2); ("b", 0)] ∧
  wire (publish "t" scenario.A scenario.one_stalled).2 = [].
Proof. vm_compute. done. Qed.

(** C8: in every reachable state the history of every topic holds at most
    100 entries, and publishing 101 messages to a registered topic leaves
    in its history exactly the last 100 of them, in order. *)
Theorem history_holds_last_100 (w : World) :
  reachable w →
  (∀ n t, _topics (broker w) !! n = Some t →
          length (collections.elems (message_history t)) ≤ 100) ∧
  (∀ n t (ms : list models.MessagePayload),
     _topics (broker w) !! n = Some t →
     length ms = 101 →
     ∃ t', _topics (broker (run (Publish n <$> ms) w)) !! n = Some t' ∧
           collections.elems (message_history t') = drop 1 ms ∧
           length (collections.elems (message_history t')) = 100).
Proof.
  intros Hr. pose proof (reachable_sound w Hr) as Hw. split.
  - intros n t Ht. apply (Hw n t Ht).
  - intros n t ms Ht Hms.
    destruct (publish_many_history ms w n t Hw Ht) as (t' & Ht' & Hh).
    exists t'. split; [done|]. destruct (Hw n t Ht) as [_ Hlen].
    assert (collections.elems (message_history t') = drop 1 ms) as ->.
    { rewrite Hh. unfold most_recent. rewrite length_app, Hms.
      rewrite drop_app_ge by lia. f_equal. lia. }
    split; [done|]. rewrite length_drop. lia.
Qed.

Lemma history_witness :
  ∃ t',
    _topics
      (broker
         (run (Publish "t" <$> scenario.A :: replicate 100 scenario.B)
            scenario.three_published)) !! "t" = Some t' ∧
    collections.elems (message_history t') = replicate 100 scenario.B.
Proof.
  destruct (history_holds_last_100 scenario.three_published
              ltac:(apply reachable_run, reach_initial)) as [_ Hlast].
  destruct (Hlast "t"
              {| name := "t";
                 subscribers := [];
                 message_history :=
                   {| collections.maxlen := 100;
                      collections.elems :=
                        [scenario.A; scenario.B; scenario.C] |};
                 message_count := 3 |}
              (scenario.A :: replicate 100 scenario.B)
              ltac:(vm_compute; reflexivity)
              ltac:(reflexivity)) as (t' & Ht' & Hh & _).
  exists t'. split; [exact Ht'|exact Hh].
Defined.

Section null_last_n.
Import models.
Context `{Pydantic}.
Variable websocket : WebSocket.



End null_last_n.


(** C10: [disconnect_client(c)] returns, keeps the set of registered
    topics, and keeps the name, the history and the [message_count] of each
    topic; it removes [c] from the subscribers of the topics listed in the
    index entry of [c], leaves every other topic as it was, removes the
    index entry of [c] and nothing else from the index, and writes
    nothing. *)
Theorem disconnect_client_frame (w : World) (client_id : string) :
  ∃ w',
    disconnect_client client_id w = (Return tt, w') ∧
    dom (_topics (broker w')) = dom (_topics (broker w)) ∧
    (∀ n t, _topics (broker w) !! n = Some t →
       ∃ t', _topics (broker w') !! n = Some t' ∧
             name t' = name t ∧
             message_history t' = message_history t ∧
             message_count t' = message_count t ∧
             (listed (_clients (broker w)) client_id n →
              subscribers t' = PyDict.delitem client_id (subscribers t)) ∧
             (¬ listed (_clients (broker w)) client_id n → t' = t)) ∧
    _clients (broker w') = delete client_id (_clients (broker w)) ∧
    sockets w' = sockets w ∧
    wire w' = wire w.
Proof.
  eexists. split; [apply disconnect_client_run|].
  destruct (_clients (broker w) !! client_id) as [s|] eqn:Hs.
  - cbn. split; [|split; [|by repeat split]].
    + apply set_eq. intros n. rewrite !elem_of_dom.
      rewrite lookup_remove_from by apply NoDup_elements.
      case_decide; [|done]. by rewrite fmap_is_Some.
    + intros n t Ht. rewrite lookup_remove_from by apply NoDup_elements.
      rewrite Ht. case_decide as Hn.
      * eexists. split; [done|]. repeat split; try done.
        intros Hnl. destruct Hnl. exists s. split; [done|].
        by apply elem_of_elements.
      * exists t. split; [done|]. repeat split; try done.
        intros (s' & Hs' & Hin). rewrite Hs in Hs'. injection Hs' as <-.
        destruct Hn. by apply elem_of_elements.
  - split; [done|]. split; [|split; [|done]].
    + intros n t Ht. exists t. split; [done|]. repeat split; try done.
      intros (s' & Hs' & _). by rewrite Hs in Hs'.
    + symmetry. by apply delete_id.
Qed.

Lemma disconnect_client_witness :
  ∃ w',
    disconnect_client "c" scenario.one_subscriber = (Return tt, w') ∧
    dom (_topics (broker w')) = dom (_topics (broker scenario.one_subscriber)) ∧
    _clients (broker w') = ∅ ∧
    wire w' = [].
Proof.
  destruct (disconnect_client_frame scenario.one_subscriber "c")
    as (w' & Hrun & Hdom & _ & Hclients & _ & Hwire).
  exists w'. split; [exact Hrun|]. split; [exact Hdom|].
  split; [rewrite Hclients|rewrite Hwire]; vm_compute; reflexivity.
Defined.

(** ** Further properties of the code *)

(** *** The broker *)

(** X1: POST /topics on a name that is not registered answers "created" and
    registers a fresh, empty topic; DELETE of that topic answers "deleted"
    and gives back the state before the creation.  DELETE of a name that is
    not registered raises [HTTPException] 404 and POST on a registered name
    raises [HTTPException] 409; both leave the state as it is. *)
Theorem rest_create_then_delete (w : World)
    (request : models.CreateTopicRequest.t) :
  let name := models.CreateTopicRequest.name request in
  (_topics (broker w) !! name = None →
   ∃ w1,
     main.create_topic request w =
       (Return {| models.TopicStatusResponse.status := "created";
                  models.TopicStatusResponse.topic := name |}, w1) ∧
     _topics (broker w1) !! name = Some (Topic_init name) ∧
     main.delete_topic name w1 =
       (Return {| models.TopicStatusResponse.status := "deleted";
                  models.TopicStatusResponse.topic := name |}, w) ∧
     main.delete_topic name w =
       (Raise (HTTPException 404 "Topic not found"), w)) ∧
  (is_Some (_topics (broker w) !! name) →
   main.create_topic request w =
     (Raise (HTTPException 409 "Topic already exists"), w)).
Proof.
  intros name. split.
  - intros Hnone. eexists. unfold main.create_topic, main.delete_topic.
    unfold mbind at 1, Async_bind at 1. rewrite create_topic_run.
    fold name. rewrite Hnone. split; [reflexivity|]. split; [|split].
    + cbn. apply lookup_insert_eq.
    + unfold mbind at 1, Async_bind at 1.
      rewrite (delete_topic_ok _ name (Topic_init name)).
      * cbn. f_equal. rewrite app_nil_r, delete_insert_id by done.
        by destruct w as [[]].
      * cbn. apply lookup_insert_eq.
      * constructor.
    + unfold mbind at 1, Async_bind at 1. by rewrite delete_topic_missing.
  - intros [t Ht]. unfold main.create_topic.
    unfold mbind at 1, Async_bind at 1. rewrite create_topic_run.
    fold name. by rewrite Ht.
Qed.

Lemma rest_create_then_delete_witness :
  main.create_topic {| models.CreateTopicRequest.name := "t" |}
    scenario.one_subscriber =
    (Raise (HTTPException 409 "Topic already exists"),
     scenario.one_subscriber) ∧
  ∃ w1,
    main.create_topic {| models.CreateTopicRequest.name := "u" |}
      scenario.one_subscriber =
      (Return {| models.TopicStatusResponse.status := "created";
                 models.TopicStatusResponse.topic := "u" |}, w1) ∧
    main.delete_topic "u" w1 =
      (Return {| models.TopicStatusResponse.status := "deleted";
                 models.TopicStatusResponse.topic := "u" |},
       scenario.one_subscriber).
Proof.
  split.
  - apply (rest_create_then_delete scenario.one_subscriber
             {| models.CreateTopicRequest.name := "t" |}).
    eexists. vm_compute. reflexivity.
  - destruct (rest_create_then_delete scenario.one_subscriber
                {| models.CreateTopicRequest.name := "u" |}) as [Hnew _].
    destruct (Hnew ltac:(vm_compute; reflexivity))
      as (w1 & Hcreate & _ & Hdelete & _).
    exists w1. split; [exact Hcreate|exact Hdelete].
Defined.

(** X2: [list_topics] changes nothing and returns every registered name
    exactly once, and nothing else; GET /topics wraps this list. *)
Theorem list_topics_lists_registry (w : World) :
  ∃ l,
    manager.list_topics w = (Return l, w) ∧
    main.list_topics w =
      (Return {| models.ListTopicsResponse.topics := l |}, w) ∧
    NoDup l ∧
    length l = size (_topics (broker w)) ∧
    ∀ n, n ∈ l ↔ is_Some (_topics (broker w) !! n).
Proof.
  eexists. split; [reflexivity|]. split; [reflexivity|]. split; [|split].
  - apply NoDup_fst_map_to_list.
  - by rewrite length_fmap, length_map_to_list.
  - intros n. rewrite list_elem_of_fmap. split.
    + intros [[k t] [-> Hin%elem_of_map_to_list]]. by exists t.
    + intros [t Ht]. exists (n, t). split; [done|].
      by apply elem_of_map_to_list.
Qed.

Lemma sum_permutation (l1 l2 : list Z) :
  l1 ≡ₚ l2 → foldr Z.add 0%Z l1 = foldr Z.add 0%Z l2.
Proof. induction 1; cbn; lia. Qed.

(** X3: the statistics change nothing.  [get_health_stats] reports uptime
    0, the number of registered topics and the sum of the subscriber counts
    that [get_full_stats] reports; [get_full_stats] has, for exactly the
    registered names, the message counter and the number of subscribers of
    the topic.  GET /health replaces the uptime by the elapsed time and
    GET /stats returns the full statistics. *)
Theorem stats_of_the_registry (w : World) (elapsed : Z) :
  ∃ health stats,
    manager.get_health_stats w = (Return health, w) ∧
    main.health_check elapsed w =
      (Return {| models.uptime_sec := elapsed;
                 models.topics := models.topics health;
                 models.subscribers := models.subscribers health |}, w) ∧
    manager.get_full_stats w = (Return stats, w) ∧
    main.get_stats w = (Return stats, w) ∧
    models.uptime_sec health = 0%Z ∧
    models.topics health = Z.of_nat (size stats) ∧
    models.subscribers health =
      foldr Z.add 0%Z
        ((λ kt, models.subscriber_count kt.2) <$> map_to_list stats) ∧
    ∀ n,
      stats !! n =
        (λ t, {| models.messages := message_count t;
                 models.subscriber_count :=
                   Z.of_nat (length (subscribers t)) |})
          <$> _topics (broker w) !! n.
Proof.
  eexists _, _. split; [reflexivity|]. split; [reflexivity|].
  split; [reflexivity|]. split; [reflexivity|]. split; [reflexivity|].
  split; [|split].
  - cbn. by rewrite map_size_fmap.
  - cbn. apply sum_permutation. rewrite map_to_list_fmap.
    rewrite <- list_fmap_compose. done.
  - intros n. apply lookup_fmap.
Qed.

Lemma discard_subscription_idem c n (cl : gmap string (gset string)) :
  discard_subscription c n (discard_subscription c n cl) =
  discard_subscription c n cl.
Proof.
  apply map_eq. intros i. destruct (decide (c = i)) as [->|Hne].
  - rewrite !lookup_discard_eq. destruct (cl !! i) as [s|]; cbn; [|done].
    destruct (decide (s ∖ {[n]} = ∅)) as [He|He]; cbn; [done|].
    replace (s ∖ {[n]} ∖ {[n]}) with (s ∖ {[n]})
      by (apply set_eq; intros x; rewrite !elem_of_difference; tauto).
    by rewrite decide_False.
  - by rewrite !lookup_discard_ne.
Qed.

Lemma delitem_idem {V} k (d : list (string * V)) :
  PyDict.delitem k (PyDict.delitem k d) = PyDict.delitem k d.
Proof. unfold PyDict.delitem. apply list_filter_filter_l. done. Qed.

(** X4: unsubscribing twice is unsubscribing once: the second call has the
    outcome of the first and stays in the state the first one reached. *)
Theorem unsubscribe_idempotent (w : World) (topic_name client_id : string) :
  unsubscribe topic_name client_id (unsubscribe topic_name client_id w).2 =
  unsubscribe topic_name client_id w.
Proof.
  destruct (_topics (broker w) !! topic_name) as [t|] eqn:Ht.
  - rewrite (unsubscribe_found w topic_name t) by done. cbn [snd].
    rewrite (unsubscribe_found _ topic_name
               (on_subscribers (PyDict.delitem client_id) t))
      by (cbn; apply lookup_insert_eq).
    cbn [broker _topics _clients sockets wire].
    rewrite insert_insert_eq, discard_subscription_idem.
    unfold on_subscribers.
    cbn [subscribers name message_history message_count].
    by rewrite delitem_idem.
  - rewrite (unsubscribe_missing w) by done. cbn [snd].
    by rewrite unsubscribe_missing.
Qed.

(** X5: on a registered topic [unsubscribe] returns; afterwards the client
    is no subscriber of the topic and the topic is not in its index entry,
    every other subscription and index entry is as before, and nothing was
    written. *)
Theorem unsubscribe_removes_one_subscription
    (w : World) (topic_name client_id : string) (t : Topic) :
  _topics (broker w) !! topic_name = Some t →
  let w' := (unsubscribe topic_name client_id w).2 in
  (unsubscribe topic_name client_id w).1 = Return tt ∧
  ¬ subscribed w' topic_name client_id ∧
  ¬ listed (_clients (broker w')) client_id topic_name ∧
  (∀ n c, (n, c) ≠ (topic_name, client_id) →
     (subscribed w' n c ↔ subscribed w n c) ∧
     (listed (_clients (broker w')) c n ↔ listed (_clients (broker w)) c n)) ∧
  sockets w' = sockets w ∧
  wire w' = wire w.
Proof.
  intros Ht w'. unfold w'. rewrite (unsubscribe_found w topic_name t) by done.
  cbn [fst snd broker _clients sockets wire].
  split; [done|]. split; [|split; [|split; [|done]]].
  - intros (t' & Ht' & Hc). cbn in Ht'. rewrite lookup_insert_eq in Ht'.
    injection Ht' as <-. cbn [on_subscribers subscribers] in Hc.
    apply keys_delitem in Hc as [? _]. done.
  - intros (s & Hs & Hn). rewrite lookup_discard_eq in Hs.
    destruct (_clients (broker w) !! client_id) as [s'|]; cbn in Hs; [|done].
    case_decide; [done|]. injection Hs as <-.
    apply elem_of_difference in Hn as [_ Hn]. apply Hn.
    by apply elem_of_singleton.
  - intros n c Hne. split.
    + unfold subscribed. cbn [broker _topics].
      destruct (decide (topic_name = n)) as [->|Hn].
      * rewrite lookup_insert_eq, Ht. split.
        -- intros (t' & [= <-] & Hc). exists t. split; [done|].
           cbn [on_subscribers subscribers] in Hc.
           by apply keys_delitem in Hc as [_ ?].
        -- intros (t' & [= <-] & Hc). eexists. split; [done|].
           cbn [on_subscribers subscribers]. apply keys_delitem.
           split; [congruence|done].
      * by rewrite lookup_insert_ne.
    + unfold listed. destruct (decide (client_id = c)) as [->|Hc].
      * rewrite lookup_discard_eq.
        destruct (_clients (broker w) !! c) as [s'|]; cbn.
        -- assert (n ≠ topic_name) by congruence. split.
           ++ intros (s & Hs & Hin). case_decide; [done|].
              injection Hs as <-. exists s'. split; [done|].
              by apply elem_of_difference in Hin as [? _].
           ++ intros (s & [= <-] & Hin).
              assert (n ∈ s' ∖ {[topic_name]}) as Hin'.
              { apply elem_of_difference. split; [done|].
                by intros ?%elem_of_singleton. }
              rewrite decide_False.
              ** by exists (s' ∖ {[topic_name]}).
              ** intros Hempty. rewrite Hempty in Hin'.
                 by apply not_elem_of_empty in Hin'.
        -- done.
      * by rewrite lookup_discard_ne.
Qed.

Lemma unsubscribe_removes_one_subscription_witness :
  ¬ subscribed (unsubscribe "t" "c" scenario.one_subscriber).2 "t" "c" ∧
  ¬ listed (_clients (broker (unsubscribe "t" "c" scenario.one_subscriber).2))
      "c" "t".
Proof.
  edestruct (unsubscribe_removes_one_subscription scenario.one_subscriber
               "t" "c") as (_ & Hsub & Hlisted & _).
  - vm_compute. reflexivity.
  - split; [exact Hsub|exact Hlisted].
Defined.

Lemma subscribed_remove_from w c (s : gset string) n c' :
  subscribed
    {| broker :=
         {| _topics := remove_from c (elements s) (_topics (broker w));
            _clients := delete c (_clients (broker w)) |};
       sockets := sockets w;
       wire := wire w |} n c' ↔
  subscribed w n c' ∧ ¬ (c' = c ∧ n ∈ s).
Proof.
  unfold subscribed. cbn [broker _topics].
  rewrite lookup_remove_from by apply NoDup_elements.
  destruct (decide (n ∈ elements s)) as [Hn|Hn].
  - apply elem_of_elements in Hn. split.
    + intros (t' & Ht' & Hc).
      destruct (_topics (broker w) !! n) as [t|]; [|done].
      injection Ht' as <-. cbn [on_subscribers subscribers] in Hc.
      apply keys_delitem in Hc as [Hne Hc]. split; [by exists t|tauto].
    + intros [(t & Ht & Hc) Hnot]. rewrite Ht. eexists. split; [done|].
      cbn [on_subscribers subscribers]. apply keys_delitem. split; [|done].
      intros ->. tauto.
  - rewrite elem_of_elements in Hn. split; [|tauto].
    intros Hs. split; [done|]. tauto.
Qed.

Lemma disconnect_client_clears w c :
  index_covers w →
  _clients (broker (disconnect_client c w).2) !! c = None ∧
  ∀ n, ¬ subscribed (disconnect_client c w).2 n c.
Proof.
  intros Hcov. rewrite disconnect_client_run. cbn [snd].
  destruct (_clients (broker w) !! c) as [s|] eqn:Hs.
  - split; [cbn; apply lookup_delete_eq|]. intros n.
    rewrite subscribed_remove_from. intros [Hsub Hnot]. apply Hnot.
    split; [done|]. destruct (Hcov n c Hsub) as (s' & Hs' & Hin).
    congruence.
  - split; [done|]. intros n Hsub.
    destruct (Hcov n c Hsub) as (s' & Hs' & _). congruence.
Qed.


(** X6: in a state reached without a failing transport, [disconnect_client]
    leaves the client without an index entry and without a subscription on
    any topic, touches no other client, and a second call changes
    nothing. *)
Theorem disconnect_client_removes_the_client (w : World) (client_id : string) :
  reachable_undisturbed w →
  let w' := (disconnect_client client_id w).2 in
  _clients (broker w') !! client_id = None ∧
  (∀ n, ¬ subscribed w' n client_id) ∧
  (∀ n c, c ≠ client_id →
     (subscribed w' n c ↔ subscribed w n c) ∧
     _clients (broker w') !! c = _clients (broker w) !! c) ∧
  disconnect_client client_id w' = (Return tt, w').
Proof.
  intros Hr w'. destruct (reachable_undisturbed_index w Hr) as [Hcov _].
  assert (_clients (broker w') !! client_id = None) as Hgone.
  { unfold w'. rewrite disconnect_client_run. cbn [snd].
    destruct (_clients (broker w) !! client_id) eqn:Hs; [|done].
    cbn. apply lookup_delete_eq. }
  split; [done|]. split; [|split].
  - intros n. unfold w'. rewrite disconnect_client_run. cbn [snd].
    destruct (_clients (broker w) !! client_id) as [s|] eqn:Hs.
    + rewrite subscribed_remove_from. intros [Hsub Hnot]. apply Hnot.
      split; [done|]. destruct (Hcov n client_id Hsub) as (s' & Hs' & Hin).
      congruence.
    + intros Hsub. destruct (Hcov n client_id Hsub) as (s' & Hs' & _).
      congruence.
  - intros n c Hne. unfold w'. rewrite disconnect_client_run. cbn [snd].
    destruct (_clients (broker w) !! client_id) as [s|] eqn:Hs; [|done].
    rewrite subscribed_remove_from. cbn [broker _clients].
    rewrite lookup_delete_ne by done. split; [|done]. tauto.
  - rewrite disconnect_client_run. by rewrite Hgone.
Qed.

Lemma disconnect_client_removes_the_client_witness :
  _clients (broker scenario.purged) !! "c" = Some {["t"]} ∧
  _clients (broker (disconnect_client "c" scenario.purged).2) !! "c" = None ∧
  ∀ n, ¬ subscribed (disconnect_client "c" scenario.purged).2 n "c".
Proof.
  split; [vm_compute; reflexivity|].
  destruct (disconnect_client_removes_the_client scenario.purged "c"
              purged_reachable) as (Hgone & Hnone & _).
  split; [exact Hgone|exact Hnone].
Defined.

Lemma get_setitem_eq {V} k (v : V) (d : list (string * V)) :
  PyDict.get k (PyDict.setitem k v d) = Some v.
Proof.
  induction d as [|[k' v'] d IH]; cbn.
  - by rewrite decide_True.
  - destruct (decide (k' = k)) as [->|Hne]; cbn.
    + by rewrite decide_True.
    + by rewrite decide_False.
Qed.

Lemma get_setitem_ne {V} k k' (v : V) (d : list (string * V)) :
  k' ≠ k → PyDict.get k' (PyDict.setitem k v d) = PyDict.get k' d.
Proof.
  intros Hne. induction d as [|[k0 v0] d IH]; cbn.
  - by rewrite decide_False.
  - destruct (decide (k0 = k)) as [->|Hne0]; cbn.
    + by rewrite !decide_False.
    + by rewrite IH.
Qed.

(** X7: whatever its outcome, [subscribe] on a registered topic leaves the
    given socket as the handle of the client: an earlier handle of this
    client is replaced in place, a new client goes last.  The other
    handles, the name, the history and the counter of the topic and the
    other topics are as before, and the index gains exactly this
    subscription. *)
Theorem subscribe_installs_the_handle
    (w : World) (topic_name client_id : string) (websocket : WebSocket)
    (last_n : option Z) (t : Topic) :
  _topics (broker w) !! topic_name = Some t →
  let w' := (subscribe topic_name client_id websocket last_n w).2 in
  ∃ t',
    _topics (broker w') !! topic_name = Some t' ∧
    PyDict.get client_id (subscribers t') = Some websocket ∧
    (∀ c, c ≠ client_id →
       PyDict.get c (subscribers t') = PyDict.get c (subscribers t)) ∧
    PyDict.keys (subscribers t') =
      (if decide (client_id ∈ PyDict.keys (subscribers t))
       then PyDict.keys (subscribers t)
       else PyDict.keys (subscribers t) ++ [client_id]) ∧
    name t' = name t ∧
    message_history t' = message_history t ∧
    message_count t' = message_count t ∧
    (∀ n, n ≠ topic_name →
       _topics (broker w') !! n = _topics (broker w) !! n) ∧
    (∀ c n, listed (_clients (broker w')) c n ↔
            listed (_clients (broker w)) c n ∨
            (c = client_id ∧ n = topic_name)).
Proof.
  intros Ht w'. unfold w'. rewrite (subscribe_broker w topic_name t) by done.
  cbn [broker _topics _clients]. eexists. split; [apply lookup_insert_eq|].
  cbn [on_subscribers subscribers name message_history message_count].
  split; [apply get_setitem_eq|]. split; [intros; by apply get_setitem_ne|].
  split; [apply keys_setitem|]. do 3 (split; [done|]). split.
  - intros n Hne. by rewrite lookup_insert_ne.
  - intros c n. apply listed_add.
Qed.

Lemma subscribe_installs_the_handle_witness :
  ∃ t',
    _topics (broker (subscribe "t" "c" 5 (Some 0%Z)
                       scenario.one_subscriber).2) !! "t" = Some t' ∧
    PyDict.get "c" (subscribers t') = Some 5 ∧
    PyDict.keys (subscribers t') = ["c"].
Proof.
  edestruct (subscribe_installs_the_handle scenario.one_subscriber "t" "c" 5
               (Some 0%Z)) as (t' & Ht' & Hget & _ & Hkeys & _).
  - vm_compute. reflexivity.
  - exists t'. split; [exact Ht'|]. split; [exact Hget|].
    rewrite Hkeys. vm_compute. reflexivity.
Defined.

Lemma exec_bookkeeping c w i t t' :
  sound w →
  _topics (broker w) !! i = Some t →
  _topics (broker (exec c w).2) !! i = Some t' →
  name t' = name t ∧
  match published c i with
  | Some m =>
      message_history t' = collections.append m (message_history t) ∧
      message_count t' = (message_count t + 1)%Z
  | None =>
      message_history t' = message_history t ∧
      message_count t' = message_count t
  end.
Proof.
  intros Hw Hi.
  destruct c as [n|n|n c ws last_n|n c|n m|c]; cbn [exec published].
  - rewrite create_topic_run. destruct (_topics (broker w) !! n) eqn:Hn.
    + cbn. rewrite Hi. by intros [= <-].
    + cbn. rewrite lookup_insert_ne by congruence. rewrite Hi. by intros [= <-].
  - destruct (_topics (broker w) !! n) as [t0|] eqn:Hn.
    + destruct (decide (Forall (deliverable w) (subscribers t0))) as [Hl|Hl].
      * rewrite (delete_topic_ok w n t0) by done. cbn.
        intros [_ Hi']%lookup_delete_Some. rewrite Hi in Hi'.
        by injection Hi' as <-.
      * apply first_undeliverable in Hl as (l1 & c & ws & l2 & ? & ? & ? & ?).
        rewrite (delete_topic_fails w n t0 l1 c ws l2) by done. cbn.
        rewrite Hi. by intros [= <-].
    + rewrite delete_topic_missing by done. cbn. rewrite Hi. by intros [= <-].
  - destruct (_topics (broker w) !! n) as [t0|] eqn:Hn.
    + rewrite (subscribe_broker w n t0) by done. cbn.
      destruct (decide (n = i)) as [->|Hne].
      * rewrite lookup_insert_eq. intros [= <-]. rewrite Hi in Hn.
        by injection Hn as <-.
      * rewrite lookup_insert_ne by done. rewrite Hi. by intros [= <-].
    + rewrite subscribe_missing by done. cbn. rewrite Hi. by intros [= <-].
  - destruct (_topics (broker w) !! n) as [t0|] eqn:Hn.
    + rewrite (unsubscribe_found w n t0) by done. cbn.
      destruct (decide (n = i)) as [->|Hne].
      * rewrite lookup_insert_eq. intros [= <-]. rewrite Hi in Hn.
        by injection Hn as <-.
      * rewrite lookup_insert_ne by done. rewrite Hi. by intros [= <-].
    + rewrite unsubscribe_missing by done. cbn. rewrite Hi. by intros [= <-].
  - destruct (_topics (broker w) !! n) as [t0|] eqn:Hn.
    + pose proof (Hw n t0 Hn) as [(_ & Hwf & _) _].
      assert (∀ subs,
        <[n := {| name := name t0; subscribers := subs;
                  message_history := collections.append m (message_history t0);
                  message_count := message_count t0 + 1 |}]>
          (_topics (broker w)) !! i = Some t' →
        name t' = name t ∧
        match (if decide (n = i) then Some m else None) with
        | Some m =>
            message_history t' = collections.append m (message_history t) ∧
            message_count t' = (message_count t + 1)%Z
        | None =>
            message_history t' = message_history t ∧
            message_count t' = message_count t
        end) as Hcase.
      { intros subs. destruct (decide (n = i)) as [->|Hne].
        - rewrite lookup_insert_eq. intros [= <-].
          rewrite Hi in Hn. by injection Hn as <-.
        - rewrite lookup_insert_ne by done. rewrite Hi. by intros [= <-]. }
      destruct (decide (Forall (deliverable w) (subscribers t0))) as [Hl|Hl].
      * rewrite (publish_ok w n t0) by done. apply Hcase.
      * apply first_undeliverable in Hl as (l1 & c & ws & l2 & ? & ? & ? & ?).
        rewrite (publish_fails w n t0 m l1 c ws l2) by done. apply Hcase.
    + rewrite publish_missing by done. cbn [snd]. rewrite Hi. intros [= <-].
      rewrite decide_False by congruence. done.
  - rewrite disconnect_client_run.
    destruct (_clients (broker w) !! c) as [s|] eqn:Hs; cbn.
    + rewrite lookup_remove_from by apply NoDup_elements. rewrite Hi.
      case_decide; by intros [= <-].
    + rewrite Hi. by intros [= <-].
Qed.

Lemma exec_fresh c w i t' :
  sound w →
  _topics (broker w) !! i = None →
  _topics (broker (exec c w).2) !! i = Some t' →
  c = CreateTopic i ∧ t' = Topic_init i.
Proof.
  intros Hw Hi. destruct c as [n|n|n c ws last_n|n c|n m|c]; cbn [exec].
  - rewrite create_topic_run. destruct (_topics (broker w) !! n) eqn:Hn.
    + cbn. by rewrite Hi.
    + cbn. destruct (decide (n = i)) as [->|Hne].
      * rewrite lookup_insert_eq. by intros [= <-].
      * rewrite lookup_insert_ne by done. by rewrite Hi.
  - destruct (_topics (broker w) !! n) as [t0|] eqn:Hn.
    + destruct (decide (Forall (deliverable w) (subscribers t0))) as [Hl|Hl].
      * rewrite (delete_topic_ok w n t0) by done. cbn.
        intros [_ Hi']%lookup_delete_Some. by rewrite Hi in Hi'.
      * apply first_undeliverable in Hl as (l1 & c & ws & l2 & ? & ? & ? & ?).
        rewrite (delete_topic_fails w n t0 l1 c ws l2) by done. cbn.
        by rewrite Hi.
    + rewrite delete_topic_missing by done. cbn. by rewrite Hi.
  - destruct (_topics (broker w) !! n) as [t0|] eqn:Hn.
    + rewrite (subscribe_broker w n t0) by done. cbn.
      rewrite lookup_insert_ne by congruence. by rewrite Hi.
    + rewrite subscribe_missing by done. cbn. by rewrite Hi.
  - destruct (_topics (broker w) !! n) as [t0|] eqn:Hn.
    + rewrite (unsubscribe_found w n t0) by done. cbn.
      rewrite lookup_insert_ne by congruence. by rewrite Hi.
    + rewrite unsubscribe_missing by done. cbn. by rewrite Hi.
  - destruct (_topics (broker w) !! n) as [t0|] eqn:Hn.
    + pose proof (Hw n t0 Hn) as [(_ & Hwf & _) _].
      destruct (decide (Forall (deliverable w) (subscribers t0))) as [Hl|Hl].
      * rewrite (publish_ok w n t0) by done. cbn.
        rewrite lookup_insert_ne by congruence. by rewrite Hi.
      * apply first_undeliverable in Hl as (l1 & c & ws & l2 & ? & ? & ? & ?).
        rewrite (publish_fails w n t0 m l1 c ws l2) by done. cbn.
        rewrite lookup_insert_ne by congruence. by rewrite Hi.
    + rewrite publish_missing by done. cbn. by rewrite Hi.
  - rewrite disconnect_client_run.
    destruct (_clients (broker w) !! c) as [s|] eqn:Hs; cbn.
    + rewrite lookup_remove_from by apply NoDup_elements. rewrite Hi.
      by case_decide.
    + by rewrite Hi.
Qed.

(** X8: in a reachable state, no operation other than a publish on the
    topic changes the history or the counter of a registered topic, and a
    publish appends its message and adds one, whether or not its fan-out
    completes.  No operation renames a topic, and only [create_topic]
    registers a name that was not registered, with a fresh topic. *)
Theorem only_publish_touches_history_and_counter
    (c : call) (w : World) (n : string) (t' : Topic) :
  reachable w →
  _topics (broker (exec c w).2) !! n = Some t' →
  match _topics (broker w) !! n with
  | Some t =>
      name t' = name t ∧
      match published c n with
      | Some m =>
          message_history t' = collections.append m (message_history t) ∧
          message_count t' = (message_count t + 1)%Z
      | None =>
          message_history t' = message_history t ∧
          message_count t' = message_count t
      end
  | None => c = CreateTopic n ∧ t' = Topic_init n
  end.
Proof.
  intros Hr Ht'. pose proof (reachable_sound w Hr) as Hw.
  destruct (_topics (broker w) !! n) as [t|] eqn:Ht.
  - by apply (exec_bookkeeping c w n t t').
  - by apply (exec_fresh c w n t').
Qed.

Lemma only_publish_touches_history_and_counter_witness :
  ∃ t',
    _topics (broker (exec (Publish "t" scenario.A)
                       scenario.three_published).2) !! "t" = Some t' ∧
    collections.elems (message_history t') =
      [scenario.A; scenario.B; scenario.C; scenario.A] ∧
    message_count t' = 4%Z.
Proof.
  assert (_topics (broker (exec (Publish "t" scenario.A)
                             scenario.three_published).2) !! "t" =
            Some {| name := "t";
                    subscribers := [];
                    message_history :=
                      {| collections.maxlen := 100;
                         collections.elems :=
                           [scenario.A; scenario.B; scenario.C;
                            scenario.A] |};
                    message_count := 4 |}) as Ht'
    by (vm_compute; reflexivity).
  eexists. split; [exact Ht'|].
  pose proof (only_publish_touches_history_and_counter
                (Publish "t" scenario.A) scenario.three_published "t" _
                ltac:(apply reachable_run, reach_initial) Ht') as Hstep.
  assert (_topics (broker scenario.three_published) !! "t" =
            Some {| name := "t";
                    subscribers := [];
                    message_history :=
                      {| collections.maxlen := 100;
                         collections.elems :=
                           [scenario.A; scenario.B; scenario.C] |};
                    message_count := 3 |}) as Hold
    by (vm_compute; reflexivity).
  rewrite Hold in Hstep. destruct Hstep as (_ & Hh & Hc).
  rewrite Hh, Hc. split; vm_compute; reflexivity.
Defined.

Lemma append_length {A} (x : A) (q : collections.deque A) :
  collections.maxlen q = 100 →
  length (collections.elems q) ≤ 100 →
  length (collections.elems (collections.append x q)) =
    Nat.min (length (collections.elems q) + 1) 100.
Proof.
  intros Hmax Hlen. rewrite append_elems by done.
  rewrite length_app. case_decide; rewrite ?length_drop; cbn; lia.
Qed.

(** X9: in every reachable state a topic is registered under its own name,
    its counter is not negative, and its history holds as many entries as
    the counter says, up to 100. *)
Theorem counter_counts_the_history (w : World) :
  reachable w →
  ∀ n t, _topics (broker w) !! n = Some t →
    name t = n ∧
    (0 ≤ message_count t)%Z ∧
    Z.of_nat (length (collections.elems (message_history t))) =
      Z.min (message_count t) 100.
Proof.
  induction 1 as [socks|w c Hr IH _|w socks Hr IH].
  - intros n t. cbn. by rewrite lookup_empty.
  - intros n t' Ht'. pose proof (reachable_sound w Hr) as Hw.
    destruct (_topics (broker w) !! n) as [t|] eqn:Ht.
    + destruct (exec_bookkeeping c w n t t' Hw Ht Ht') as [Hname Hbook].
      destruct (IH n t Ht) as (Hn & Hpos & Hrel).
      destruct (Hw n t Ht) as [(_ & _ & Hmax) Hlen].
      split; [congruence|].
      destruct (published c n) as [m|]; destruct Hbook as [-> ->].
      * split; [lia|]. rewrite append_length by done. lia.
      * done.
    + destruct (exec_fresh c w n t' Hw Ht Ht') as [_ ->]. cbn. done.
  - exact IH.
Qed.

Lemma counter_counts_the_history_witness :
  ∃ t,
    _topics (broker scenario.three_published) !! "t" = Some t ∧
    message_count t = 3%Z ∧
    Z.of_nat (length (collections.elems (message_history t))) =
      Z.min (message_count t) 100.
Proof.
  eexists. split; [vm_compute; reflexivity|]. split; [reflexivity|].
  apply (counter_counts_the_history scenario.three_published
           ltac:(apply reachable_run, reach_initial) "t").
  vm_compute. reflexivity.
Defined.
















(** *** The frames of a session *)

Section frames.
Import models.
Context `{Pydantic}.
Variable websocket : WebSocket.



Lemma answer_error_invalid (rid : option json) loc (error : ErrorPayload) s :
  optional_str "request_id" rid = inl loc →
  (error_msg ← main.construct (new_error rid error);
   main.await (send_json websocket error_msg)) s =
    (Raise (ValidationError loc), s).
Proof.
  intros Hr. unfold new_error. rewrite Hr. reflexivity.
Qed.




Lemma on_frame_unfold (d : pydict json) s :
  main.on_frame websocket (JDict d) s =
    try_except
      (main.dispatch websocket (JDict d) (PyDict.get "type" d)
         (PyDict.get "request_id" d))
      (main.handlers websocket (PyDict.get "request_id" d)) s.
Proof. reflexivity. Qed.

Lemma validate_subscribe_request_id d msg :
  validate_subscribe d = inr msg →
  ∃ r, optional_str "request_id" (PyDict.get "request_id" d) = inr r.
Proof.
  unfold validate_subscribe.
  destruct (field_str d "topic"); [done|].
  destruct (field_str d "client_id"); [done|].
  destruct (field_last_n d); [done|]. cbn [models.bind].
  destruct (optional_str _ _); [done|]. by eexists.
Qed.

Lemma validate_unsubscribe_request_id d msg :
  validate_unsubscribe d = inr msg →
  ∃ r, optional_str "request_id" (PyDict.get "request_id" d) = inr r.
Proof.
  unfold validate_unsubscribe.
  destruct (field_str d "topic"); [done|].
  destruct (field_str d "client_id"); [done|]. cbn [models.bind].
  destruct (optional_str _ _); [done|]. by eexists.
Qed.

Lemma validate_publish_request_id d msg :
  validate_publish d = inr msg →
  ∃ r, optional_str "request_id" (PyDict.get "request_id" d) = inr r.
Proof.
  unfold validate_publish.
  destruct (field_str d "topic"); [done|].
  destruct (field_message d); [done|]. cbn [models.bind].
  destruct (optional_str _ _); [done|]. by eexists.
Qed.

Lemma dispatch_invalid_request_id (d : pydict json) s loc :
  optional_str "request_id" (PyDict.get "request_id" d) = inl loc →
  ∃ e, main.dispatch websocket (JDict d) (PyDict.get "type" d)
         (PyDict.get "request_id" d) s = (Raise e, s) ∧
       (e = ValueError "Unsupported message type" ∨
        ∃ text, e = ValidationError text).
Proof.
  intros Hr. unfold main.dispatch. cbn [main.kwargs].
  destruct (main.is_literal _ "subscribe").
  { destruct (validate_subscribe d) as [text|msg] eqn:Hv.
    - exists (ValidationError text). split; [done|]. right. by eexists.
    - destruct (validate_subscribe_request_id _ _ Hv) as [r Hr'].
      congruence. }
  destruct (main.is_literal _ "unsubscribe").
  { destruct (validate_unsubscribe d) as [text|msg] eqn:Hv.
    - exists (ValidationError text). split; [done|]. right. by eexists.
    - destruct (validate_unsubscribe_request_id _ _ Hv) as [r Hr'].
      congruence. }
  destruct (main.is_literal _ "publish").
  { destruct (validate_publish d) as [text|msg] eqn:Hv.
    - exists (ValidationError text). split; [done|]. right. by eexists.
    - destruct (validate_publish_request_id _ _ Hv) as [r Hr'].
      congruence. }
  destruct (main.is_literal _ "ping").
  { unfold validate_ping. rewrite Hr. cbn [models.bind main.construct].
    exists (ValidationError loc). split; [done|]. right. by eexists. }
  exists (ValueError "Unsupported message type"). split; [done|]. by left.
Qed.

Lemma serve_unfold frames s :
  main.serve websocket frames s =
    let '(o, s1) :=
      try_except (main.receive_loop websocket frames)
        (λ e, match e with
              | WebSocketDisconnect => Some (mret tt)
              | _ => None
              end) s in
    match main.truthy (main.client_id s1) with
    | Some c =>
        (o, {| main.world := (disconnect_client c (main.world s1)).2;
               main.client_id := main.client_id s1 |})
    | None => (o, s1)
    end.
Proof.
  unfold main.serve, try_finally.
  destruct (try_except _ _ s) as [o s1].
  unfold mbind at 1, Async_bind at 1, gets at 1. cbn beta iota.
  destruct (main.truthy (main.client_id s1)) as [c|]; [|done].
  unfold main.await. by rewrite disconnect_client_run.
Qed.

(** X15: a frame whose [request_id] is refused by the validator is never
    answered, whatever its type: the error frame cannot be built either, so
    the [ValidationError] leaves the handler of the frame and ends the
    endpoint, the frames after it are not handled and nothing is
    written. *)
Theorem ill_typed_request_id_ends_the_session (d : pydict json)
    (s : main.Endpoint) (loc : string) (frames : list json) :
  optional_str "request_id" (PyDict.get "request_id" d) = inl loc →
  let end_of_session := main.serve websocket (JDict d :: frames) s in
  main.on_frame websocket (JDict d) s = (Raise (ValidationError loc), s) ∧
  end_of_session.1 = Raise (ValidationError loc) ∧
  wire (main.world end_of_session.2) = wire (main.world s).
Proof.
  intros Hr end_of_session.
  assert (main.on_frame websocket (JDict d) s =
            (Raise (ValidationError loc), s)) as Hframe.
  { rewrite on_frame_unfold.
    destruct (dispatch_invalid_request_id d s loc Hr) as (e & He & Hcase).
    unfold try_except. rewrite He.
    destruct Hcase as [->|[text ->]]; cbn [main.handlers];
      by rewrite (answer_error_invalid _ loc _ _ Hr). }
  split; [done|].
  assert (end_of_session =
            match main.truthy (main.client_id s) with
            | Some c =>
                (Raise (ValidationError loc),
                 {| main.world := (disconnect_client c (main.world s)).2;
                    main.client_id := main.client_id s |})
            | None => (Raise (ValidationError loc), s)
            end) as ->.
  { unfold end_of_session. rewrite serve_unfold.
    unfold try_except. cbn [main.receive_loop].
    unfold mbind at 1, Async_bind at 1. by rewrite Hframe. }
  destruct (main.truthy (main.client_id s)) as [c|];
    cbn [fst snd main.world]; (split; [done|]); [|done].
  rewrite disconnect_client_run. cbn [snd].
  by destruct (_clients (broker (main.world s)) !! c).
Qed.

(** X23: a frame that is valid JSON but not an object ends the session:
    [data.get] raises [AttributeError], which no clause of the handler
    catches, so no error frame is sent, the following frames are not
    handled and the endpoint ends with the exception, after a clean-up that
    adds no subscription. *)
Theorem non_object_frame_ends_the_session (data : json)
    (s : main.Endpoint) (frames : list json) :
  (∀ d, data ≠ JDict d) →
  let end_of_session := main.serve websocket (data :: frames) s in
  main.on_frame websocket data s = (Raise AttributeError, s) ∧
  end_of_session.1 = Raise AttributeError ∧
  wire (main.world end_of_session.2) = wire (main.world s) ∧
  ∀ n c, subscribed (main.world end_of_session.2) n c →
         subscribed (main.world s) n c.
Proof.
  intros Hdata end_of_session.
  assert (main.on_frame websocket data s = (Raise AttributeError, s))
    as Hframe.
  { destruct data as [| | | | | |d]; try done. by destruct (Hdata d). }
  split; [done|].
  assert (end_of_session =
            match main.truthy (main.client_id s) with
            | Some c =>
                (Raise AttributeError,
                 {| main.world := (disconnect_client c (main.world s)).2;
                    main.client_id := main.client_id s |})
            | None => (Raise AttributeError, s)
            end) as ->.
  { unfold end_of_session. rewrite serve_unfold.
    unfold try_except. cbn [main.receive_loop].
    unfold mbind at 1, Async_bind at 1. by rewrite Hframe. }
  destruct (main.truthy (main.client_id s)) as [c|];
    cbn [fst snd main.world]; (split; [done|]); [|done].
  rewrite disconnect_client_run. cbn [snd].
  destruct (_clients (broker (main.world s)) !! c) as [cs|]; [|done].
  split; [done|]. intros n c'. rewrite subscribed_remove_from. tauto.
Qed.








End frames.


Lemma ill_typed_request_id_ends_the_session_witness :
  (main.serve (H := models.strict) 0
     [models.JDict scenario.numbered_frame;
      models.JDict scenario.ping_frame]
     (scenario.fresh scenario.one_subscriber)).1 =
    Raise (ValidationError "request_id").
Proof.
  apply (ill_typed_request_id_ends_the_session (H := models.strict) 0
           scenario.numbered_frame (scenario.fresh scenario.one_subscriber)
           "request_id" [models.JDict scenario.ping_frame]).
  vm_compute. reflexivity.
Defined.

Lemma non_object_frame_ends_the_session_witness :
  (main.serve (H := models.strict) 0
     [models.JList []; models.JDict scenario.ping_frame]
     (scenario.fresh scenario.one_subscriber)).1 = Raise AttributeError.
Proof.
  apply (non_object_frame_ends_the_session (H := models.strict) 0
           (models.JList []) (scenario.fresh scenario.one_subscriber)
           [models.JDict scenario.ping_frame]).
  intros d Hd. discriminate Hd.
Defined.



(** *** Sessions *)

Lemma keeps_ret {S A} (P : S → Prop) (a : A) : keeps P (mret a).
Proof. by intros ? ?. Qed.

Lemma keeps_raise {S A} (P : S → Prop) e : keeps P (raise (A := A) e).
Proof. by intros ? ?. Qed.

Lemma keeps_bind {S A B} (P : S → Prop) (m : Async S A) (k : A → Async S B) :
  keeps P m → (∀ a, keeps P (k a)) → keeps P (m ≫= k).
Proof.
  intros Hm Hk s Hs. unfold mbind, Async_bind. specialize (Hm s Hs).
  destruct (m s) as [[a|e] s']; [by apply Hk|done].
Qed.

Lemma keeps_try_except {S A} (P : S → Prop) (m : Async S A) handler :
  keeps P m → (∀ e h, handler e = Some h → keeps P h) →
  keeps P (try_except m handler).
Proof.
  intros Hm Hh s Hs. unfold try_except. specialize (Hm s Hs).
  destruct (m s) as [[a|e] s']; [done|].
  destruct (handler e) as [h|] eqn:He; [|done]. by apply (Hh e h).
Qed.

Lemma keeps_await {A} (P : World → Prop) (m : Async World A) :
  keeps P m → keeps (λ s, P (main.world s)) (main.await m).
Proof.
  intros Hm s Hs. unfold main.await. specialize (Hm _ Hs).
  by destruct (m (main.world s)).
Qed.

Lemma kept_broker w w' : broker w = broker w' → kept w → kept w'.
Proof.
  unfold kept, sound, index_kept, index_covers, index_no_empty, subscribed.
  by intros ->.
Qed.

Lemma send_json_broker ws frame w : broker (send_json ws frame w).2 = broker w.
Proof.
  unfold send_json. unfold_async.
  by destruct (transport_up (sockets w ws)).
Qed.

Lemma keeps_send_json ws frame : keeps kept (send_json ws frame).
Proof.
  intros w Hw. by apply (kept_broker w); [rewrite send_json_broker|].
Qed.

Lemma keeps_publish n m : keeps kept (publish n m).
Proof.
  intros w [Hw Hi]. split; [by apply (exec_sound (Publish n m))|].
  destruct (_topics (broker w) !! n) as [t|] eqn:Ht.
  - destruct (decide (Forall (deliverable w) (subscribers t))) as [Hd|Hd].
    + apply (exec_index (Publish n m)); [done|done|]. cbn [exec].
      destruct (Hw n t Ht) as [(_ & Hwf & _) _].
      by rewrite (publish_ok w n t m).
    + destruct (first_undeliverable w _ Hd)
        as (l1 & c & ws & l2 & Hl & Hl1 & Hc & Hdown).
      rewrite (publish_fails w n t m l1 c ws l2) by done. cbn [snd].
      destruct Hi as [Hcov Hne]. split; [|done].
      intros i c' (t' & Hi' & Hc'). cbn [broker _topics _clients] in *.
      apply Hcov. destruct (decide (n = i)) as [->|Hni].
      * rewrite lookup_insert_eq in Hi'. injection Hi' as <-.
        by exists t.
      * rewrite lookup_insert_ne in Hi' by done. by exists t'.
  - by rewrite publish_missing.
Qed.

Lemma keeps_subscribe n c ws last_n : keeps kept (subscribe n c ws last_n).
Proof.
  intros w Hw.
  destruct (_topics (broker w) !! n) as [t|] eqn:Ht;
    [|by rewrite subscribe_missing].
  set (w_up :=
         on_sockets
           (λ _ _, {| client_state := Some CONNECTED; transport_up := true |})
           w).
  apply (kept_broker (exec (Subscribe n c ws last_n) w_up).2).
  { cbn [exec]. by rewrite !(subscribe_broker _ n t). }
  assert (kept w_up) as [Hs Hi] by by apply (kept_broker w).
  split; [by apply exec_sound|]. apply exec_index; [done|done|].
  cbn [exec]. destruct last_n as [k|].
  - rewrite (subscribe_int w_up n t) by done. cbn zeta.
    by rewrite replay_loop.
  - by rewrite (subscribe_none w_up n t).
Qed.

Lemma keeps_unsubscribe n c : keeps kept (unsubscribe n c).
Proof.
  intros w [Hw Hi]. split; [by apply (exec_sound (Unsubscribe n c))|].
  apply (exec_index (Unsubscribe n c)); [done|done|]. cbn [exec].
  destruct (_topics (broker w) !! n) as [t|] eqn:Ht.
  - by rewrite (unsubscribe_found w n t).
  - by rewrite unsubscribe_missing.
Qed.

Lemma keeps_disconnect_client c : keeps kept (disconnect_client c).
Proof.
  intros w [Hw Hi]. split; [by apply (exec_sound (DisconnectClient c))|].
  apply (exec_index (DisconnectClient c)); [done|done|]. cbn [exec].
  by rewrite disconnect_client_run.
Qed.


Section session.
Import models.
Context `{Pydantic}.
Variable websocket : WebSocket.

Lemma keeps_construct {A} (v : validated A) :
  keeps session_kept (main.construct v).
Proof. destruct v; by intros ? ?. Qed.

Lemma keeps_answer (v : validated ServerMessage) :
  keeps session_kept
    (frame ← main.construct v; main.await (send_json websocket frame)).
Proof.
  apply keeps_bind; [apply keeps_construct|]. intros frame.
  apply (keeps_await kept), keeps_send_json.
Qed.

Lemma keeps_on_frame data : keeps session_kept (main.on_frame websocket data).
Proof.
  unfold main.on_frame.
  apply keeps_bind; [destruct data; by intros ? ?|]. intros msg_type.
  apply keeps_bind; [destruct data; by intros ? ?|]. intros request_id.
  apply keeps_try_except.
  - unfold main.dispatch.
    destruct (main.is_literal msg_type "subscribe").
    { apply keeps_bind; [apply keeps_construct|]. intros msg.
      apply keeps_bind; [by intros ? ?|]. intros _.
      apply keeps_bind; [apply (keeps_await kept), keeps_subscribe|].
      intros _. apply keeps_answer. }
    destruct (main.is_literal msg_type "unsubscribe").
    { apply keeps_bind; [apply keeps_construct|]. intros msg.
      apply keeps_bind; [apply (keeps_await kept), keeps_unsubscribe|].
      intros _. apply keeps_answer. }
    destruct (main.is_literal msg_type "publish").
    { apply keeps_bind; [apply keeps_construct|]. intros msg.
      apply keeps_bind; [apply (keeps_await kept), keeps_publish|].
      intros _. apply keeps_answer. }
    destruct (main.is_literal msg_type "ping").
    { apply keeps_bind; [apply keeps_construct|]. intros msg.
      apply keeps_answer. }
    apply keeps_raise.
  - intros e h He. destruct e; cbn [main.handlers] in He; try done;
      injection He as <-; apply keeps_answer.
Qed.

Lemma keeps_receive_loop frames :
  keeps session_kept (main.receive_loop websocket frames).
Proof.
  induction frames as [|data frames IH]; [apply keeps_raise|].
  cbn [main.receive_loop]. apply keeps_bind; [apply keeps_on_frame|done].
Qed.





(** X21: a session started in a state with well-formed topics whose index
    covers the subscribers ends in such a state, whatever the frames and
    however it ends, and the client id it has bound last, unless empty, is
    left without an index entry and without a subscription on any
    topic. *)
Theorem endpoint_cleans_up_its_client (frames : list json)
    (s : main.Endpoint) :
  sound (main.world s) → index_kept (main.world s) →
  let s' := (main.serve websocket frames s).2 in
  sound (main.world s') ∧ index_kept (main.world s') ∧
  ∀ c, main.truthy (main.client_id s') = Some c →
       _clients (broker (main.world s')) !! c = None ∧
       ∀ n, ¬ subscribed (main.world s') n c.
Proof.
  intros Hs Hi s'.
  assert (session_kept s) as Hk by done.
  pose proof (keeps_try_except session_kept
                (main.receive_loop websocket frames)
                (λ e, match e with
                      | WebSocketDisconnect => Some (mret tt)
                      | _ => None
                      end)
                (keeps_receive_loop frames)) as Hbody.
  specialize (Hbody ltac:(intros e h He; destruct e; try done;
                          injection He as <-; apply keeps_ret) s Hk).
  unfold s'. rewrite serve_unfold.
  destruct (try_except _ _ s) as [o s1]. cbn [snd] in Hbody.
  destruct (main.truthy (main.client_id s1)) as [c|] eqn:Hc.
  - cbn [snd main.world main.client_id].
    destruct (keeps_disconnect_client c _ Hbody) as [Hs1 Hi1].
    split; [done|]. split; [done|]. intros c' Hc'.
    assert (c' = c) as -> by congruence.
    destruct Hbody as [_ [Hcov _]].
    by apply disconnect_client_clears.
  - cbn [snd]. destruct Hbody as [Hs1 Hi1]. split; [done|]. split; [done|].
    intros c' Hc'. congruence.
Qed.



End session.

Lemma three_published_kept :
  sound scenario.three_published ∧ index_kept scenario.three_published.
Proof.
  split.
  - apply reachable_sound, reachable_run, reach_initial.
  - apply reachable_undisturbed_index, reach_run; [apply reach_initial|].
    vm_compute. repeat constructor; discriminate.
Qed.




Lemma endpoint_cleans_up_its_client_witness :
  main.client_id
    (main.serve (H := models.strict) 0
       [models.JDict (scenario.subscribe_frame "t" "d")]
       (scenario.fresh scenario.three_published)).2 = Some "d" ∧
  _clients
    (broker
       (main.world
          (main.serve (H := models.strict) 0
             [models.JDict (scenario.subscribe_frame "t" "d")]
             (scenario.fresh scenario.three_published)).2)) !! "d" = None ∧
  ¬ subscribed
      (main.world
         (main.serve (H := models.strict) 0
            [models.JDict (scenario.subscribe_frame "t" "d")]
            (scenario.fresh scenario.three_published)).2) "t" "d".
Proof.
  split; [vm_compute; reflexivity|].
  destruct three_published_kept as [Hsound Hindex].
  destruct (endpoint_cleans_up_its_client (H := models.strict) 0
              [models.JDict (scenario.subscribe_frame "t" "d")]
              (scenario.fresh scenario.three_published) Hsound Hindex)
    as (_ & _ & Hclean).
  destruct (Hclean "d" ltac:(vm_compute; reflexivity)) as [Hgone Hnone].
  split; [exact Hgone|apply Hnone].
Defined.

